(** * Nearest-patch matching of PREDICTS sites to Major TOM patches

A shallow embedding of [scripts/match_predicts_major_tom_fixed.py].

Conventions of the embedding:
- a Python/numpy float is a real number ([R]); the functions are
  read over exact real arithmetic, NaN and rounding are not modelled.
  The two filters of the matching loop, which only add, subtract and
  compare, are also given on IEEE doubles, in [Binary64];
- a pandas [Timestamp] is an integer count of nanoseconds since the
  epoch ([Z]); a column produced by [pd.to_datetime(..., errors="coerce")]
  holds [option Z], where [None] is [NaT]. [pd.to_datetime] itself is a
  parameter of the loader, a function from a column to a column;
- a Python dict (an output record) is a [gmap string value];
- a Python exception is the [Raise] case of [result]. *)

From Stdlib Require Import Reals Lra Lia ZArith List Sorted Permutation.
From Stdlib Require Import Ascii DecimalString DecimalPos DecimalZ SpecFloat.
From stdpp Require Import base decidable option list sorting gmap strings.

Local Open Scope R_scope.

(** * The program *)

(** ** Geodesic distance *)

Module Haversine.

(** [np.radians]: degrees to radians. *)
Definition radians (deg : R) : R := deg * PI / 180.

(** Earth radius in km, the constant [R] of the source. *)
Definition R_earth : R := 6371.

(** The quantity [a] of the source. *)
Definition hav_a (lat1 lon1 lat2 lon2 : R) : R :=
  let lat1_rad := radians lat1 in
  let lat2_rad := radians lat2 in
  let dlat := radians (lat2 - lat1) in
  let dlon := radians (lon2 - lon1) in
  (sin (dlat / 2)) ^ 2 + cos lat1_rad * cos lat2_rad * (sin (dlon / 2)) ^ 2.

Definition haversine_distance (lat1 lon1 lat2 lon2 : R) : R :=
  let a := hav_a lat1 lon1 lat2 lon2 in
  let c := 2 * asin (sqrt a) in
  R_earth * c.

End Haversine.

(** ** Data model *)

(** Python exceptions the modelled code can raise. *)
Inductive exn : Set :=
| ValueError   (* [int(nan)]; [pd.concat] of no frame *)
| IndexError   (* [iloc[0]] on an empty frame *)
| KeyError.    (* a column that the frame does not have *)

Inductive result (A : Type) : Type :=
| Ok (a : A)
| Raise (e : exn).
Arguments Ok {A} a.
Arguments Raise {A} e.

#[global] Instance result_ret : MRet result := fun A a => Ok a.
#[global] Instance result_bind : MBind result := fun A B k m =>
  match m with
  | Ok a => k a
  | Raise e => Raise e
  end.

(** Values stored in the dicts appended to [matches]. *)
Inductive value : Type :=
| VNone
| VNaN
| VStr (s : string)
| VInt (n : Z)
| VFloat (x : R)
| VTimestamp (t : Z)
| VNaT.

(** [pd.isna] on a cell. *)
Definition is_null (v : value) : bool :=
  match v with
  | VNone | VNaN | VNaT => true
  | _ => false
  end.

(** A cell of the column [Site_number]. The column is [int64] when no
    cell of the files is empty; with an empty cell it is [float64]: the
    integers are held as floats and the empty cells are NaN. *)
Inductive number : Type :=
| Int64 (n : Z)
| Float64 (n : Z)
| NaN.

Definition number_value (c : number) : value :=
  match c with
  | Int64 n => VInt n
  | Float64 n => VFloat (IZR n)
  | NaN => VNaN
  end.

(** A row of the table returned by [load_predicts_sites]. *)
Record site : Type := {
  Site_number : number;
  Source_ID : string;
  Latitude : R;
  Longitude : R;
  Predominant_land_use : option string;
  Sample_midpoint : Z;
  Country : option string;
  Use_intensity : option string;
  source_file : string;
  site_uid : string
}.

(** A row of the metadata table [meta], after [timestamp_dt] has been
    added; the raw [timestamp] column is read by nothing else. *)
Record patch : Type := {
  grid_cell : string;
  product_id : string;
  timestamp_dt : option Z;
  cloud_cover : R;
  centre_lat : R;
  centre_lon : R;
  parquet_url : string;
  parquet_row : Z
}.

Definition str_or_nan (o : option string) : value :=
  match o with
  | Some s => VStr s
  | None => VNaN
  end.

(** [site_row.to_dict()] *)
Definition to_dict (s : site) : gmap string value :=
  <["site_uid" := VStr (site_uid s)]>
  (<["source_file" := VStr (source_file s)]>
  (<["Use_intensity" := str_or_nan (Use_intensity s)]>
  (<["Country" := str_or_nan (Country s)]>
  (<["Sample_midpoint" := VTimestamp (Sample_midpoint s)]>
  (<["Predominant_land_use" := str_or_nan (Predominant_land_use s)]>
  (<["Longitude" := VFloat (Longitude s)]>
  (<["Latitude" := VFloat (Latitude s)]>
  (<["Source_ID" := VStr (Source_ID s)]>
  (<["Site_number" := number_value (Site_number s)]> ∅))))))))).

(** The eight keys that the loop adds to a site's dict. *)
Definition match_fields : list string :=
  ["product_id"; "eo_timestamp"; "lag_days"; "cloud_cover";
   "distance_km"; "parquet_url"; "parquet_row"; "grid_cell"]%string.

(** The ten columns of the sites table. *)
Definition site_fields : list string :=
  ["Site_number"; "Source_ID"; "Latitude"; "Longitude";
   "Predominant_land_use"; "Sample_midpoint"; "Country"; "Use_intensity";
   "source_file"; "site_uid"]%string.

(** ** Comparisons on floats are decidable *)

#[global] Instance Rle_decision (x y : R) : Decision (x <= y) := Rle_dec x y.
#[global] Instance Rge_decision (x y : R) : Decision (x >= y) := Rge_dec x y.
#[global] Instance Rlt_decision (x y : R) : Decision (x < y) := Rlt_dec x y.
#[global] Instance Req_decision : EqDecision R := Req_dec_T.

(** ** Stable sorting, as [sort_values] and [nsmallest] do it *)

Section stable_sort.
  Context {A : Type} (le : relation A) `{!forall x y, Decision (le x y)}.

(** [x] goes in front of the first element it does not exceed, so rows
    with equal keys keep the order they had. *)
Fixpoint insert_by (x : A) (l : list A) : list A :=
  match l with
  | [] => [x]
  | y :: l' => if decide (le x y) then x :: y :: l' else y :: insert_by x l'
  end.

Fixpoint sort_by (l : list A) : list A :=
  match l with
  | [] => []
  | x :: l' => insert_by x (sort_by l')
  end.
End stable_sort.

(** ** The matching routine *)

(** Nanoseconds in a day; [Timedelta.days] is the floor of the quotient. *)
Definition NS_PER_DAY : Z := 86400000000000.

Definition timedelta_days (td : Z) : Z := (td `div` NS_PER_DAY)%Z.

(** The rectangular pre-filter of lines 76-81, read over the reals;
    [Binary64.in_box] below is the same test on doubles. *)
Definition in_box (site_lat site_lon search_radius_deg : R) (p : patch) : Prop :=
  centre_lat p >= site_lat - search_radius_deg /\
  centre_lat p <= site_lat + search_radius_deg /\
  centre_lon p >= site_lon - search_radius_deg /\
  centre_lon p <= site_lon + search_radius_deg.

#[global] Instance in_box_dec site_lat site_lon search_radius_deg p :
  Decision (in_box site_lat site_lon search_radius_deg p).
Proof. unfold in_box. apply _. Defined.

(** A row of [candidates] once [distance_km] is set. *)
Record candidate : Type := {
  cand : patch;
  distance_km : R
}.

(** A row of [candidates] once [lag_days] is set; [None] is the NaN that
    [.dt.days] gives for [NaT]. *)
Record ranked : Type := {
  top : candidate;
  lag_days : option Z
}.

Definition with_distance (site_lat site_lon : R) (p : patch) : candidate :=
  {| cand := p;
     distance_km :=
       Haversine.haversine_distance site_lat site_lon (centre_lat p) (centre_lon p) |}.

Definition with_lag (midpoint : Z) (c : candidate) : ranked :=
  {| top := c;
     lag_days :=
       (fun t => timedelta_days (Z.abs (t - midpoint))) <$> timestamp_dt (cand c) |}.

Definition distance_le (c1 c2 : candidate) : Prop := distance_km c1 <= distance_km c2.

#[global] Instance distance_le_dec c1 c2 : Decision (distance_le c1 c2).
Proof. unfold distance_le. apply _. Defined.

(** [candidates.nsmallest(n, "distance_km")]: ascending distance, ties in
    their previous order, the first [n] rows kept; nothing for [n <= 0]. *)
Definition nsmallest (n : Z) (l : list candidate) : list candidate :=
  take (Z.to_nat n) (sort_by distance_le l).

(** Order of a column of [lag_days] under [sort_values]: NaN goes last. *)
Definition lag_lt (a b : option Z) : Prop :=
  match a, b with
  | Some x, Some y => (x < y)%Z
  | Some _, None => True
  | None, _ => False
  end.

#[global] Instance lag_lt_dec a b : Decision (lag_lt a b).
Proof. destruct a, b; simpl; apply _. Defined.

(** The order of [sort_values(["distance_km", "lag_days", "cloud_cover"])]. *)
Definition sort_key_le (r1 r2 : ranked) : Prop :=
  distance_km (top r1) < distance_km (top r2) \/
  (distance_km (top r1) = distance_km (top r2) /\
   (lag_lt (lag_days r1) (lag_days r2) \/
    (lag_days r1 = lag_days r2 /\
     cloud_cover (cand (top r1)) <= cloud_cover (cand (top r2))))).

#[global] Instance sort_key_le_dec r1 r2 : Decision (sort_key_le r1 r2).
Proof. unfold sort_key_le. apply _. Defined.

Definition sort_values (l : list ranked) : list ranked := sort_by sort_key_le l.

(** A dict display [{**d, k1: v1, ..., kn: vn}]: later keys win. *)
Definition dict_display (d : gmap string value) (kvs : list (string * value))
  : gmap string value :=
  foldl (fun acc kv => <[kv.1 := kv.2]> acc) d kvs.

(** The record appended when a site has no acceptable candidate. *)
Definition null_match (site_row : site) : gmap string value :=
  dict_display (to_dict site_row)
    [("product_id", VNone); ("eo_timestamp", VNone); ("lag_days", VNone);
     ("cloud_cover", VNone); ("distance_km", VNone); ("parquet_url", VNone);
     ("parquet_row", VNone); ("grid_cell", VNone)]%string.

Definition timestamp_value (o : option Z) : value :=
  match o with
  | Some t => VTimestamp t
  | None => VNaT
  end.

(** [int(x)] on a cell of a column that may hold NaN. *)
Definition int_of_cell (o : option Z) : result Z :=
  match o with
  | Some z => Ok z
  | None => Raise ValueError
  end.

(** The record appended for the best candidate. *)
Definition matched_record (site_row : site) (best : ranked) (lag : Z)
  : gmap string value :=
  dict_display (to_dict site_row)
    [("product_id", VStr (product_id (cand (top best))));
     ("eo_timestamp", timestamp_value (timestamp_dt (cand (top best))));
     ("lag_days", VInt lag);
     ("cloud_cover", VFloat (cloud_cover (cand (top best))));
     ("distance_km", VFloat (distance_km (top best)));
     ("parquet_url", VStr (parquet_url (cand (top best))));
     ("parquet_row", VInt (parquet_row (cand (top best))));
     ("grid_cell", VStr (grid_cell (cand (top best))))]%string.

(** One turn of the loop over [sites.iterrows()]: the dict it appends, or
    the exception it raises. *)
Definition match_site (meta : list patch) (search_radius_deg : R)
    (max_candidates : Z) (max_cloud_cover : R) (site_row : site)
  : result (gmap string value) :=
  let site_lat := Latitude site_row in
  let site_lon := Longitude site_row in
  let candidates := filter (in_box site_lat site_lon search_radius_deg) meta in
  if decide (length candidates = 0%nat) then Ok (null_match site_row) else
  let candidates := with_distance site_lat site_lon <$> candidates in
  let candidates := filter (fun c => cloud_cover (cand c) <= max_cloud_cover) candidates in
  if decide (length candidates = 0%nat) then Ok (null_match site_row) else
  let candidates := nsmallest max_candidates candidates in
  let candidates := with_lag (Sample_midpoint site_row) <$> candidates in
  let candidates := sort_values candidates in
  match candidates with
  | [] => Raise IndexError
  | best :: _ =>
      lag ← int_of_cell (lag_days best);
      Ok (matched_record site_row best lag)
  end.

(** Lines 124-145 on their own: the record of the best of the candidates
    that passed both filters. *)
Definition best_match (max_candidates : Z) (site_row : site)
    (candidates : list candidate) : result (gmap string value) :=
  let candidates := nsmallest max_candidates candidates in
  let candidates := with_lag (Sample_midpoint site_row) <$> candidates in
  let candidates := sort_values candidates in
  match candidates with
  | [] => Raise IndexError
  | best :: _ =>
      lag ← int_of_cell (lag_days best);
      Ok (matched_record site_row best lag)
  end.

(** The loop: [matches] grows by one dict per site, in order, and the
    first exception ends the call. *)
Fixpoint iterrows_loop (meta : list patch) (search_radius_deg : R)
    (max_candidates : Z) (max_cloud_cover : R)
    (rows : list site) (matches : list (gmap string value))
  : result (list (gmap string value)) :=
  match rows with
  | [] => Ok matches
  | site_row :: rows' =>
      r ← match_site meta search_radius_deg max_candidates max_cloud_cover site_row;
      iterrows_loop meta search_radius_deg max_candidates max_cloud_cover
        rows' (matches ++ [r])
  end.

(** [match_nearest_patches], from the point where [meta] is loaded and
    [timestamp_dt] is set. Its value is the list [matches] that the
    returned [DataFrame] is built from; the progress lines it prints are
    left out. *)
Definition match_nearest_patches (sites : list site) (meta : list patch)
    (search_radius_deg : R) (max_candidates : Z) (max_cloud_cover : R)
  : result (list (gmap string value)) :=
  iterrows_loop meta search_radius_deg max_candidates max_cloud_cover sites [].

(** The call made by [main]; [max_candidates] keeps its default. *)
Definition main_matches (sites : list site) (meta : list patch)
  : result (list (gmap string value)) :=
  match_nearest_patches sites meta 1 1000 50.

(** ** The two filters in double precision *)

Module Binary64.

(** numpy's [float64], IEEE 754 binary64: 53 bits of precision, exponents
    below 1024; sums and differences are rounded to the nearest double,
    ties to even, and a comparison with NaN is false. *)
Definition float64 : Type := spec_float.

Definition add (x y : float64) : float64 := SFadd 53 1024 x y.
Definition sub (x y : float64) : float64 := SFsub 53 1024 x y.
Definition le (x y : float64) : bool := SFleb x y.
Definition ge (x y : float64) : bool := SFleb y x.

(** A row of [meta] with its three float columns as doubles. *)
Record patch : Type := {
  grid_cell : string;
  product_id : string;
  timestamp_dt : option Z;
  cloud_cover : float64;
  centre_lat : float64;
  centre_lon : float64;
  parquet_url : string;
  parquet_row : Z
}.

(** The mask of lines 76-81 on one row. *)
Definition in_box (site_lat site_lon search_radius_deg : float64) (p : patch) : bool :=
  ge (centre_lat p) (sub site_lat search_radius_deg) &&
  le (centre_lat p) (add site_lat search_radius_deg) &&
  ge (centre_lon p) (sub site_lon search_radius_deg) &&
  le (centre_lon p) (add site_lon search_radius_deg).

(** The frame [candidates] after the mask and after the cloud filter of
    line 106; the site gets a null record when it is empty, and the
    record of one of its rows otherwise. *)
Definition candidates (meta : list patch)
    (site_lat site_lon search_radius_deg max_cloud_cover : float64) : list patch :=
  let candidates := List.filter (in_box site_lat site_lon search_radius_deg) meta in
  List.filter (fun p => le (cloud_cover p) max_cloud_cover) candidates.

(** The number that a finite double stands for. *)
Definition to_real (x : float64) : R :=
  match x with
  | S754_finite s m e =>
      if (0 <=? e)%Z then IZR (cond_Zopp s (Zpos m) * 2 ^ e)
      else IZR (cond_Zopp s (Zpos m)) / IZR (2 ^ (- e))
  | _ => 0
  end.

End Binary64.

(** A row of doubles as the row of the numbers they stand for. *)
Definition patch_of_binary64 (p : Binary64.patch) : patch :=
  {| grid_cell := Binary64.grid_cell p;
     product_id := Binary64.product_id p;
     timestamp_dt := Binary64.timestamp_dt p;
     cloud_cover := Binary64.to_real (Binary64.cloud_cover p);
     centre_lat := Binary64.to_real (Binary64.centre_lat p);
     centre_lon := Binary64.to_real (Binary64.centre_lon p);
     parquet_url := Binary64.parquet_url p;
     parquet_row := Binary64.parquet_row p |}.

(** ** Loading the sites *)

Definition AG_LAND_USES : gset string :=
  {[ "Cropland"; "Pasture"; "Plantation forest" ]}%string.

Module Csv.
(** A row of [pd.read_csv(path, usecols=cols)]; an empty cell is [None].
    The cells of [Site_number] are integers and those of [Source_ID] are
    never empty. *)
Record row : Type := {
  Site_number : option Z;
  Source_ID : string;
  Latitude : option R;
  Longitude : option R;
  Predominant_land_use : option string;
  Sample_midpoint : option string;
  Country : option string;
  Use_intensity : option string
}.
End Csv.

Module Frame.
(** A row of a frame once [source_file] is set. *)
Record row : Type := {
  cols : Csv.row;
  source_file : string
}.
End Frame.

Module Located.
(** A row that passed [dropna]: the three columns of [subset] hold a
    value; [T] is what the cells of [Sample_midpoint] hold. *)
Record row (T : Type) : Type := {
  origin : Frame.row;
  Latitude : R;
  Longitude : R;
  Sample_midpoint : T
}.
Arguments origin {T} _.
Arguments Latitude {T} _.
Arguments Longitude {T} _.
Arguments Sample_midpoint {T} _.
End Located.

(** [Series.isin(values)] on one cell. *)
Definition isin (cell : option string) (values : gset string) : Prop :=
  match cell with
  | Some s => s ∈ values
  | None => False
  end.

#[global] Instance isin_dec cell values : Decision (isin cell values).
Proof. destruct cell; simpl; apply _. Defined.

(** [str] of a cell of [Site_number], as [astype(str)] gives it: ['12'] in
    an [int64] column, ['12.0'] and ['nan'] in a [float64] one. A float
    holds every integer up to [2^53], and Python writes it in this form up
    to [10^16]; the larger ones are written here in the same form. *)
Definition astype_str (c : number) : string :=
  match c with
  | Int64 n => NilZero.string_of_int (Z.to_int n)
  | Float64 n => NilZero.string_of_int (Z.to_int n) ++ ".0"
  | NaN => "nan"
  end.

(** A file to read: its name, [path.name], and its rows. *)
Definition read_frame (path : string * list Csv.row) : list Frame.row :=
  (fun r => {| Frame.cols := r; Frame.source_file := path.1 |}) <$> path.2.

(** The column [Site_number] of the frame that [pd.concat] builds is
    [float64] as soon as one of its cells is empty. *)
Definition float_site_numbers (frame : list Frame.row) : Prop :=
  Exists (fun fr => Csv.Site_number (Frame.cols fr) = None) frame.

#[global] Instance float_site_numbers_dec frame : Decision (float_site_numbers frame).
Proof. unfold float_site_numbers. apply _. Defined.

(** A cell of [Site_number] as the column of [frame] holds it. *)
Definition site_number_cell (frame : list Frame.row) (cell : option Z) : number :=
  match cell with
  | Some n => if decide (float_site_numbers frame) then Float64 n else Int64 n
  | None => NaN
  end.

(** [dropna(subset=["Latitude", "Longitude", "Sample_midpoint"])] on one row. *)
Definition dropna_located (fr : Frame.row) : option (Located.row string) :=
  match Csv.Latitude (Frame.cols fr), Csv.Longitude (Frame.cols fr),
        Csv.Sample_midpoint (Frame.cols fr) with
  | Some lat, Some lon, Some mid =>
      Some {| Located.origin := fr; Located.Latitude := lat;
              Located.Longitude := lon; Located.Sample_midpoint := mid |}
  | _, _, _ => None
  end.

(** [dropna(subset=["Sample_midpoint"])] on one row. *)
Definition dropna_midpoint (l : Located.row (option Z)) : option (Located.row Z) :=
  match Located.Sample_midpoint l with
  | Some t =>
      Some {| Located.origin := Located.origin l;
              Located.Latitude := Located.Latitude l;
              Located.Longitude := Located.Longitude l;
              Located.Sample_midpoint := t |}
  | None => None
  end.

(** The row with its [site_uid]; [frame] is the concatenated frame, which
    decides the type of the column [Site_number]. *)
Definition with_site_uid (frame : list Frame.row) (l : Located.row Z) : site :=
  let c := Frame.cols (Located.origin l) in
  let number := site_number_cell frame (Csv.Site_number c) in
  {| Site_number := number;
     Source_ID := Csv.Source_ID c;
     Latitude := Located.Latitude l;
     Longitude := Located.Longitude l;
     Predominant_land_use := Csv.Predominant_land_use c;
     Sample_midpoint := Located.Sample_midpoint l;
     Country := Csv.Country c;
     Use_intensity := Csv.Use_intensity c;
     source_file := Frame.source_file (Located.origin l);
     site_uid := (Csv.Source_ID c ++ "::" ++ astype_str number)%string |}.

Section load.
  (** [pd.to_datetime(column, errors="coerce")]: the column of the
      timestamps, with [None] where pandas gives [NaT]. It is given the
      whole column at once, and what it makes of a cell can depend on the
      other cells. *)
  Variable to_datetime : list string -> list (option Z).

(** [sites["Sample_midpoint"] = parsed] on row [i]: the row takes element
    [i] of the parsed column. *)
Definition set_midpoint (parsed : list (option Z)) (i : nat) (l : Located.row string)
  : Located.row (option Z) :=
  {| Located.origin := Located.origin l;
     Located.Latitude := Located.Latitude l;
     Located.Longitude := Located.Longitude l;
     Located.Sample_midpoint := mjoin (parsed !! i) |}.

Definition parse_midpoints (sites : list (Located.row string))
  : list (Located.row (option Z)) :=
  let parsed := to_datetime (Located.Sample_midpoint <$> sites) in
  imap (set_midpoint parsed) sites.

Definition load_predicts_sites (paths : list (string * list Csv.row))
  : result (list site) :=
  let frames := read_frame <$> paths in
  match frames with
  | [] => Raise ValueError
  | _ :: _ =>
      let frame := concat frames in
      let sites :=
        filter (fun fr => isin (Csv.Predominant_land_use (Frame.cols fr)) AG_LAND_USES)
          frame in
      let sites := omap dropna_located sites in
      let sites := parse_midpoints sites in
      let sites := omap dropna_midpoint sites in
      Ok (with_site_uid frame <$> sites)
  end.
End load.

(** ** The summary printed by [main] *)

(** [matches["product_id"].notna()] on one record. *)
Definition product_id_notna (r : gmap string value) : bool :=
  match r !! "product_id"%string with
  | Some v => negb (is_null v)
  | None => false
  end.

(** [matched_df['distance_km'] < x] on one record. *)
Definition distance_below (x : R) (r : gmap string value) : Prop :=
  match r !! "distance_km"%string with
  | Some (VFloat d) => d < x
  | _ => False
  end.

#[global] Instance distance_below_dec x r : Decision (distance_below x r).
Proof.
  unfold distance_below. destruct (r !! "distance_km"%string) as [[]|]; apply _.
Defined.

(** The four counts of the distance bins, below 1, 5, 10 and 20 km. *)
Record distance_bins : Type := {
  below_1km : nat;
  below_5km : nat;
  below_10km : nat;
  below_20km : nat
}.

(** The numbers [main] prints: the bins only when a site is matched. *)
Record summary : Type := {
  matched : nat;
  unmatched : nat;
  bins : option distance_bins;
  saved : nat
}.

Definition summarize (matches : list (gmap string value)) : summary :=
  let matched := length (filter (fun r => product_id_notna r = true) matches) in
  let unmatched := length (filter (fun r => product_id_notna r = false) matches) in
  let bins :=
    if decide (0 < matched)%nat then
      let matched_df := filter (fun r => product_id_notna r = true) matches in
      Some {| below_1km := length (filter (distance_below 1) matched_df);
              below_5km := length (filter (distance_below 5) matched_df);
              below_10km := length (filter (distance_below 10) matched_df);
              below_20km := length (filter (distance_below 20) matched_df) |}
    else None in
  {| matched := matched; unmatched := unmatched; bins := bins;
     saved := length matches |}.

(** [main] of the matching script, the two input files and the metadata
    being given with their content; [saved] is the number of records
    written to the JSON file. A table built from no record has no column,
    and [matches["product_id"]] raises [KeyError] on it. *)
Definition main (to_datetime : list string -> list (option Z))
    (predicts_2016 predicts_2022 : string * list Csv.row) (meta : list patch)
  : result summary :=
  sites ← load_predicts_sites to_datetime [predicts_2016; predicts_2022];
  matches ← match_nearest_patches sites meta 1 1000 50;
  match matches with
  | [] => Raise KeyError
  | _ :: _ => Ok (summarize matches)
  end.

(** ** The lag of [landuse_comparison.py] *)

(** [abs((eo_timestamp - Sample_midpoint).dt.days / 365.25)]: the days are
    taken before the absolute value. *)
Definition temporal_lag_years (eo_timestamp midpoint : Z) : R :=
  Rabs (IZR (timedelta_days (eo_timestamp - midpoint)) / 365.25).

(** [lag_days / 365.25] of [temporal_lag_histogram.py]. *)
Definition lag_years (lag_days : Z) : R := IZR lag_days / 365.25.

(** ** The grid of [explore_predicts.py] *)

(** [x // y] on floats, read over the reals. *)
Definition floordiv (x y : R) : R := IZR (Int_part (x / y)).

(** [(Latitude // 10) * 10] and [(Longitude // 10) * 10]. *)
Definition grid_bin (x : R) : R := floordiv x 10 * 10.

(** ** The overlap statistics of [temporal_coverage.py] *)

(** A row of [matches_df] with its two year columns. *)
Record year_row : Type := {
  predicts_year : Z;
  major_tom_year : Z
}.

Definition in_overlap (m : year_row) : Prop :=
  (predicts_year m >= 2016)%Z /\ (predicts_year m <= 2018)%Z /\
  (major_tom_year m >= 2016)%Z /\ (major_tom_year m <= 2018)%Z.

#[global] Instance in_overlap_dec m : Decision (in_overlap m).
Proof. unfold in_overlap. apply _. Defined.

Record overlap_stats : Type := {
  overlap_sites : Z;
  gap_sites : Z;
  overlap_pct : R;
  gap_pct : R
}.

(** A number, or the [ZeroDivisionError] of a division of integers. *)
Inductive quotient (A : Type) : Type :=
| Computed (a : A)
| ZeroDivisionError.
Arguments Computed {A} a.
Arguments ZeroDivisionError {A}.

(** [a / b] on Python integers. *)
Definition truediv (a b : Z) : quotient R :=
  if decide (b = 0%Z) then ZeroDivisionError else Computed (IZR a / IZR b).

(** The statistics that [create_figure] computes before it draws. *)
Definition overlap_statistics (matches_df : list year_row) : quotient overlap_stats :=
  let overlap_sites := Z.of_nat (length (filter in_overlap matches_df)) in
  let gap_sites := (Z.of_nat (length matches_df) - overlap_sites)%Z in
  match truediv overlap_sites (Z.of_nat (length matches_df)) with
  | ZeroDivisionError => ZeroDivisionError
  | Computed q1 =>
      let overlap_pct := q1 * 100 in
      match truediv gap_sites (Z.of_nat (length matches_df)) with
      | ZeroDivisionError => ZeroDivisionError
      | Computed q2 =>
          Computed {| overlap_sites := overlap_sites; gap_sites := gap_sites;
                      overlap_pct := overlap_pct; gap_pct := q2 * 100 |}
      end
  end.

(** * Vocabulary of the properties *)

(** A record is a match when its [product_id] is set, as [main] counts
    them with [notna()]. *)
Definition is_match (r : gmap string value) : Prop :=
  exists v, r !! "product_id"%string = Some v /\ is_null v = false.

(** A patch is acceptable for a site when it passes both filters. *)
Definition acceptable (site_row : site) (search_radius_deg max_cloud_cover : R)
    (p : patch) : Prop :=
  in_box (Latitude site_row) (Longitude site_row) search_radius_deg p /\
  cloud_cover p <= max_cloud_cover.

#[global] Instance acceptable_dec site_row search_radius_deg max_cloud_cover p :
  Decision (acceptable site_row search_radius_deg max_cloud_cover p).
Proof. unfold acceptable. apply _. Defined.

Definition site_distance (site_row : site) (p : patch) : R :=
  Haversine.haversine_distance (Latitude site_row) (Longitude site_row)
    (centre_lat p) (centre_lon p).

Definition site_lag (site_row : site) (p : patch) : option Z :=
  (fun t => timedelta_days (Z.abs (t - Sample_midpoint site_row))) <$> timestamp_dt p.

(** The row of [candidates] that a patch becomes. *)
Definition ranked_of (site_row : site) (p : patch) : ranked :=
  with_lag (Sample_midpoint site_row)
    (with_distance (Latitude site_row) (Longitude site_row) p).

(** The frame [candidates] has become when [iloc[0]] reads it. *)
Definition selection (meta : list patch) (search_radius_deg : R)
    (max_candidates : Z) (max_cloud_cover : R) (site_row : site) : list ranked :=
  sort_values
    (with_lag (Sample_midpoint site_row) <$>
       nsmallest max_candidates
         (with_distance (Latitude site_row) (Longitude site_row) <$>
            filter (acceptable site_row search_radius_deg max_cloud_cover) meta)).

(** How many acceptable patches are at least as near to the site as [p]. *)
Definition as_near_count (meta : list patch) (search_radius_deg max_cloud_cover : R)
    (site_row : site) (p : patch) : nat :=
  length (filter (fun q => site_distance site_row q <= site_distance site_row p)
            (filter (acceptable site_row search_radius_deg max_cloud_cover) meta)).

(** The lag of a parsed timestamp, in whole days. *)
Definition lag_in_days (site_row : site) (t : Z) : Z :=
  timedelta_days (Z.abs (t - Sample_midpoint site_row)).

(** Every record of a returned table is either the null record of a site
    without acceptable patch, or the record of the first row of the
    site's sorted candidates. *)
Definition record_of_site (meta : list patch) (search_radius_deg : R)
    (max_candidates : Z) (max_cloud_cover : R)
    (s : site) (r : gmap string value) : Prop :=
  (filter (acceptable s search_radius_deg max_cloud_cover) meta = [] /\
   r = null_match s) \/
  (exists p t rest,
      selection meta search_radius_deg max_candidates max_cloud_cover s
        = ranked_of s p :: rest /\
      p ∈ meta /\ acceptable s search_radius_deg max_cloud_cover p /\
      timestamp_dt p = Some t /\
      r = matched_record s (ranked_of s p) (lag_in_days s t)).

(** [r] is the record that the loop builds for [site_row] from patch [p]. *)
Definition matches_patch (site_row : site) (r : gmap string value) (p : patch) : Prop :=
  exists t, timestamp_dt p = Some t /\
    r = matched_record site_row (ranked_of site_row p) (lag_in_days site_row t).

Definition within_box (search_radius_deg : R) (site_row : site) (p : patch) : Prop :=
  Rabs (centre_lat p - Latitude site_row) <= search_radius_deg /\
  Rabs (centre_lon p - Longitude site_row) <= search_radius_deg.

(** [k] is the number of whole days in the duration [d]. *)
Definition whole_days (d k : Z) : Prop :=
  (0 <= k /\ k * NS_PER_DAY <= d < (k + 1) * NS_PER_DAY)%Z.

Definition has_acceptable (meta : list patch) (search_radius_deg max_cloud_cover : R)
    (site_row : site) : Prop :=
  exists p, p ∈ meta /\ acceptable site_row search_radius_deg max_cloud_cover p.









(** ** What the loader returns *)

(** The rows of the input files, file after file, each with the name of
    its file. *)
Definition file_rows (paths : list (string * list Csv.row)) : list (string * Csv.row) :=
  flat_map (fun path => pair path.1 <$> path.2) paths.

Definition agricultural (r : Csv.row) : Prop :=
  Csv.Predominant_land_use r = Some "Cropland"%string \/
  Csv.Predominant_land_use r = Some "Pasture"%string \/
  Csv.Predominant_land_use r = Some "Plantation forest"%string.

(** The rows whose [Sample_midpoint] is given to [pd.to_datetime]:
    agricultural land use, both coordinates and a midpoint present. *)
Definition eligible (fr : string * Csv.row) : Prop :=
  agricultural fr.2 /\ is_Some (Csv.Latitude fr.2) /\
  is_Some (Csv.Longitude fr.2) /\ is_Some (Csv.Sample_midpoint fr.2).

#[global] Instance eligible_dec fr : Decision (eligible fr).
Proof. unfold eligible, agricultural. apply _. Defined.

(** The cells of [Sample_midpoint] of some rows, one below the other. *)
Definition midpoint_column (rows : list (string * Csv.row)) : list string :=
  omap (fun fr => Csv.Sample_midpoint fr.2) rows.

(** One cell of [Site_number], in any row of any file, is empty. *)
Definition some_number_empty (paths : list (string * list Csv.row)) : Prop :=
  exists fr, fr ∈ file_rows paths /\ Csv.Site_number fr.2 = None.

(** The [Site_number] and the [site_uid] of the returned row [s], for the
    cell [cell] of the input row: the integer in decimal when no cell of
    the files is empty, and what Python prints for a float otherwise. *)
Definition number_loaded (paths : list (string * list Csv.row)) (cell : option Z)
    (s : site) : Prop :=
  match cell with
  | None =>
      Site_number s = NaN /\ site_uid s = (Source_ID s ++ "::nan")%string
  | Some n =>
      (~ some_number_empty paths ->
       Site_number s = Int64 n /\
       site_uid s = (Source_ID s ++ "::" ++ NilZero.string_of_int (Z.to_int n))%string) /\
      (some_number_empty paths ->
       Site_number s = Float64 n /\
       ((Z.abs n < 2 ^ 53)%Z ->
        site_uid s
        = (Source_ID s ++ "::" ++ NilZero.string_of_int (Z.to_int n) ++ ".0")%string))
  end.

(** The returned row [s] is the input row [fr] of the file [fr.1]: same
    cells, the midpoint parsed to [t], and the [site_uid] added. *)
Definition loaded_from (paths : list (string * list Csv.row)) (fr : string * Csv.row)
    (t : Z) (s : site) : Prop :=
  Source_ID s = Csv.Source_ID fr.2 /\
  Some (Latitude s) = Csv.Latitude fr.2 /\
  Some (Longitude s) = Csv.Longitude fr.2 /\
  Predominant_land_use s = Csv.Predominant_land_use fr.2 /\
  Sample_midpoint s = t /\
  Country s = Csv.Country fr.2 /\
  Use_intensity s = Csv.Use_intensity fr.2 /\
  source_file s = fr.1 /\
  number_loaded paths (Csv.Site_number fr.2) s.

(** [sites] are, in their order, the eligible rows of the files that
    [to_datetime] turned into a timestamp when it was given the midpoints
    of all the eligible rows; [picked] are their positions. *)
Definition loads (to_datetime : list string -> list (option Z))
    (paths : list (string * list Csv.row)) (sites : list site) : Prop :=
  let rows := filter eligible (file_rows paths) in
  let parsed := to_datetime (midpoint_column rows) in
  exists picked : list nat,
    StronglySorted lt picked /\
    (forall i, i ∈ picked <->
               exists fr t, rows !! i = Some fr /\ parsed !! i = Some (Some t)) /\
    Forall2 (fun i s => exists fr t,
                 rows !! i = Some fr /\ parsed !! i = Some (Some t) /\
                 loaded_from paths fr t s)
      picked sites.

(** A row of the concatenated frame, as a row of its file. *)
Definition file_row (fr : Frame.row) : string * Csv.row :=
  (Frame.source_file fr, Frame.cols fr).

(** The row [l] that passed the first [dropna] is the eligible row [fr]. *)
Definition located_as (l : Located.row string) (fr : string * Csv.row) : Prop :=
  file_row (Located.origin l) = fr /\
  Csv.Latitude fr.2 = Some (Located.Latitude l) /\
  Csv.Longitude fr.2 = Some (Located.Longitude l) /\
  Csv.Sample_midpoint fr.2 = Some (Located.Sample_midpoint l).

(** What the record [r] of a saved table holds of the eligible row [fr]
    whose midpoint parsed to [t]. *)
Definition saved_from (paths : list (string * list Csv.row)) (fr : string * Csv.row)
    (t : Z) (r : gmap string value) : Prop :=
  r !! "source_file"%string = Some (VStr fr.1) /\
  r !! "Source_ID"%string = Some (VStr (Csv.Source_ID fr.2)) /\
  VFloat <$> Csv.Latitude fr.2 = r !! "Latitude"%string /\
  VFloat <$> Csv.Longitude fr.2 = r !! "Longitude"%string /\
  r !! "Sample_midpoint"%string = Some (VTimestamp t) /\
  match Csv.Site_number fr.2 with
  | None =>
      r !! "Site_number"%string = Some VNaN /\
      r !! "site_uid"%string = Some (VStr (Csv.Source_ID fr.2 ++ "::nan"))
  | Some n =>
      (~ some_number_empty paths ->
       r !! "Site_number"%string = Some (VInt n) /\
       r !! "site_uid"%string
       = Some (VStr (Csv.Source_ID fr.2 ++ "::" ++ NilZero.string_of_int (Z.to_int n)))) /\
      (some_number_empty paths ->
       r !! "Site_number"%string = Some (VFloat (IZR n)) /\
       ((Z.abs n < 2 ^ 53)%Z ->
        r !! "site_uid"%string
        = Some (VStr (Csv.Source_ID fr.2 ++ "::"
                      ++ NilZero.string_of_int (Z.to_int n) ++ ".0"))))
  end.

(** The character [c] is nowhere in the string. *)
Fixpoint char_free (c : ascii) (s : string) : Prop :=
  match s with
  | EmptyString => True
  | String c' s' => c' <> c /\ char_free c s'
  end.

(** A cell parses as a date when [to_datetime] turns it into a timestamp
    on its own. *)
Definition parses_alone (to_datetime : list string -> list (option Z))
    (cell : option string) : Prop :=
  exists s t, cell = Some s /\ to_datetime [s] = [Some t].

(** Every row that is agricultural, has both coordinates and has a
    midpoint that parses as a date is among the returned rows. *)
Definition returns_every_parsing_row (to_datetime : list string -> list (option Z))
    (paths : list (string * list Csv.row)) (sites : list site) : Prop :=
  forall fr, fr ∈ file_rows paths ->
    agricultural fr.2 -> is_Some (Csv.Latitude fr.2) -> is_Some (Csv.Longitude fr.2) ->
    parses_alone to_datetime (Csv.Sample_midpoint fr.2) ->
    exists s, s ∈ sites /\ source_file s = fr.1 /\ Source_ID s = Csv.Source_ID fr.2.

(** ** Sample data *)

Definition demo_site : site :=
  {| Site_number := Int64 1; Source_ID := "AD1_2001__Liow";
     Latitude := 0; Longitude := 0;
     Predominant_land_use := Some "Cropland"%string; Sample_midpoint := 0;
     Country := Some "Singapore"%string; Use_intensity := None;
     source_file := "site-level-summaries.csv";
     site_uid := "AD1_2001__Liow::1" |}.

(** Two patches on the same grid cell, ten days apart, and one whose
    timestamp did not parse. *)
Definition patch_late : patch :=
  {| grid_cell := "0U_0R"; product_id := "S2A_late";
     timestamp_dt := Some (10 * NS_PER_DAY)%Z; cloud_cover := 10;
     centre_lat := 0; centre_lon := 0;
     parquet_url := "part_00001.parquet"; parquet_row := 0 |}.

Definition patch_same_day : patch :=
  {| grid_cell := "0U_0R"; product_id := "S2A_same_day";
     timestamp_dt := Some 0%Z; cloud_cover := 10;
     centre_lat := 0; centre_lon := 0;
     parquet_url := "part_00001.parquet"; parquet_row := 1 |}.

Definition patch_unparsed : patch :=
  {| grid_cell := "0U_0R"; product_id := "S2A_unparsed";
     timestamp_dt := None; cloud_cover := 10;
     centre_lat := 0; centre_lon := 0;
     parquet_url := "part_00001.parquet"; parquet_row := 2 |}.

(** A patch too cloudy for the default threshold and one outside the box. *)
Definition patch_cloudy : patch :=
  {| grid_cell := "0U_0R"; product_id := "S2A_cloudy";
     timestamp_dt := Some 0%Z; cloud_cover := 80;
     centre_lat := 0; centre_lon := 0;
     parquet_url := "part_00001.parquet"; parquet_row := 3 |}.

Definition patch_far : patch :=
  {| grid_cell := "5U_5R"; product_id := "S2A_far";
     timestamp_dt := Some 0%Z; cloud_cover := 10;
     centre_lat := 5; centre_lon := 5;
     parquet_url := "part_00001.parquet"; parquet_row := 4 |}.

(** Doubles: 7.37142 and 0.1 as Python reads them, 1.0, 0.2 and 50.0, and
    the sums 7.37142 + 1.0 and 0.1 + 0.2 as Python computes them. *)
Definition f64_7_37142 : Binary64.float64 := S754_finite false 8299481091297855 (-50).
Definition f64_1 : Binary64.float64 := S754_finite false 4503599627370496 (-52).
Definition f64_8_37142 : Binary64.float64 := S754_finite false 4712690499070240 (-49).
Definition f64_0_1 : Binary64.float64 := S754_finite false 7205759403792794 (-56).
Definition f64_0_2 : Binary64.float64 := S754_finite false 7205759403792794 (-55).
Definition f64_0_3 : Binary64.float64 := S754_finite false 5404319552844596 (-54).
Definition f64_50 : Binary64.float64 := S754_finite false 7036874417766400 (-47).
Definition f64_10 : Binary64.float64 := S754_finite false 5629499534213120 (-49).

(** A site at the double 7.37142 on the meridian of Greenwich. *)
Definition site_edge : site :=
  {| Site_number := Int64 2; Source_ID := "AD1_2001__Liow";
     Latitude := Binary64.to_real f64_7_37142; Longitude := 0;
     Predominant_land_use := Some "Cropland"%string; Sample_midpoint := 0;
     Country := Some "Singapore"%string; Use_intensity := None;
     source_file := "site-level-summaries.csv";
     site_uid := "AD1_2001__Liow::2" |}.

(** A patch whose centre is the double 7.37142 + 1.0, and one at
    0.1 + 0.2, both on the meridian of Greenwich. *)
Definition patch_edge : Binary64.patch :=
  {| Binary64.grid_cell := "737U_0R"; Binary64.product_id := "S2A_edge";
     Binary64.timestamp_dt := Some 0%Z; Binary64.cloud_cover := f64_10;
     Binary64.centre_lat := f64_8_37142; Binary64.centre_lon := S754_zero false;
     Binary64.parquet_url := "part_00001.parquet"; Binary64.parquet_row := 0 |}.

Definition patch_edge_small : Binary64.patch :=
  {| Binary64.grid_cell := "3U_0R"; Binary64.product_id := "S2A_edge_small";
     Binary64.timestamp_dt := Some 0%Z; Binary64.cloud_cover := f64_10;
     Binary64.centre_lat := f64_0_3; Binary64.centre_lon := S754_zero false;
     Binary64.parquet_url := "part_00001.parquet"; Binary64.parquet_row := 1 |}.

(** A CSV file of one row that loads as [demo_site], and a parser that
    knows one date. *)
Definition demo_csv_row : Csv.row :=
  {| Csv.Site_number := Some 1%Z; Csv.Source_ID := "AD1_2001__Liow";
     Csv.Latitude := Some 0; Csv.Longitude := Some 0;
     Csv.Predominant_land_use := Some "Cropland"%string;
     Csv.Sample_midpoint := Some "1970-01-01"%string;
     Csv.Country := Some "Singapore"%string; Csv.Use_intensity := None |}.

Definition demo_to_datetime (column : list string) : list (option Z) :=
  (fun s => if decide (s = "1970-01-01"%string) then Some 0%Z else None) <$> column.

Definition demo_2016 : string * list Csv.row :=
  ("site-level-summaries.csv"%string, [demo_csv_row]).

Definition demo_2022 : string * list Csv.row :=
  ("site-level-summary.csv"%string, []).

(** A file whose second row has no [Site_number] and writes its date the
    other way round. *)
Definition row_iso : Csv.row :=
  {| Csv.Site_number := Some 7%Z; Csv.Source_ID := "AD1_2001__Liow";
     Csv.Latitude := Some 0; Csv.Longitude := Some 0;
     Csv.Predominant_land_use := Some "Pasture"%string;
     Csv.Sample_midpoint := Some "2016-01-02"%string;
     Csv.Country := None; Csv.Use_intensity := None |}.

Definition row_slashes : Csv.row :=
  {| Csv.Site_number := None; Csv.Source_ID := "AD1_2002__Vazquez";
     Csv.Latitude := Some 0; Csv.Longitude := Some 0;
     Csv.Predominant_land_use := Some "Pasture"%string;
     Csv.Sample_midpoint := Some "02/01/2016"%string;
     Csv.Country := None; Csv.Use_intensity := None |}.

Definition mixed_file : string * list Csv.row :=
  ("site-level-summary.csv"%string, [row_iso; row_slashes]).

(** [pd.to_datetime] on the two dates of [mixed_file]: the format is the
    one of the first cell, [%Y-%m-%d] or [%m/%d/%Y], and a cell in the
    other format becomes [NaT]. *)
Definition strptime_iso (s : string) : option Z :=
  if decide (s = "2016-01-02"%string) then Some 1451692800000000000%Z else None.

Definition strptime_slashes (s : string) : option Z :=
  if decide (s = "02/01/2016"%string) then Some 1454284800000000000%Z else None.

Definition to_datetime_first_format (column : list string) : list (option Z) :=
  match column with
  | [] => []
  | first :: _ =>
      if decide (is_Some (strptime_iso first)) then strptime_iso <$> column
      else strptime_slashes <$> column
  end.

(** * Properties *)

(** ** Geodesic distance *)

Section haversine_facts.
Import Haversine.

Lemma radians_minus (x y : R) : radians (x - y) = radians x - radians y.
Proof. unfold radians. lra. Qed.

Lemma radians_0 : radians 0 = 0.
Proof. unfold radians. lra. Qed.

Lemma sin_sqr_opp (x : R) : (sin (- x)) ^ 2 = (sin x) ^ 2.
Proof. rewrite sin_neg. ring. Qed.

Lemma sin_cos_sqr (x : R) : (sin x) ^ 2 + (cos x) ^ 2 = 1.
Proof. pose proof (sin2_cos2 x) as H. unfold Rsqr in H. lra. Qed.

Lemma hav_a_sym (lat1 lon1 lat2 lon2 : R) :
  hav_a lat1 lon1 lat2 lon2 = hav_a lat2 lon2 lat1 lon1.
Proof.
  unfold hav_a; cbv zeta.
  replace (radians (lat1 - lat2) / 2) with (- (radians (lat2 - lat1) / 2))
    by (rewrite !radians_minus; lra).
  replace (radians (lon1 - lon2) / 2) with (- (radians (lon2 - lon1) / 2))
    by (rewrite !radians_minus; lra).
  rewrite !sin_sqr_opp. ring.
Qed.

(** With [D] the half difference and [S] the half sum of the latitudes,
    [a = (1 - s) * sin^2 D + s * cos^2 S] for [s = sin^2 (dlon / 2)]:
    a convex combination of two squares. *)
Lemma hav_a_convex (lat1 lon1 lat2 lon2 : R) :
  let D := (radians lat2 - radians lat1) / 2 in
  let S := (radians lat2 + radians lat1) / 2 in
  let s := (sin (radians (lon2 - lon1) / 2)) ^ 2 in
  hav_a lat1 lon1 lat2 lon2 = (1 - s) * (sin D) ^ 2 + s * (cos S) ^ 2.
Proof.
  intros D S s. unfold hav_a; cbv zeta. fold s.
  replace (radians (lat2 - lat1) / 2) with D
    by (unfold D; rewrite radians_minus; lra).
  replace (radians lat1) with (S - D) by (unfold S, D; lra).
  replace (radians lat2) with (S + D) by (unfold S, D; lra).
  rewrite cos_minus, cos_plus.
  assert (HS : (sin S) ^ 2 = 1 - (cos S) ^ 2) by (pose proof (sin_cos_sqr S); lra).
  assert (HD : (cos D) ^ 2 = 1 - (sin D) ^ 2) by (pose proof (sin_cos_sqr D); lra).
  replace ((sin D) ^ 2
           + (cos S * cos D + sin S * sin D) * (cos S * cos D - sin S * sin D) * s)
    with ((sin D) ^ 2 + s * ((cos S) ^ 2 * (cos D) ^ 2 - (sin S) ^ 2 * (sin D) ^ 2))
    by ring.
  rewrite HS, HD. ring.
Qed.

Lemma sqr_sin_bound (x : R) : 0 <= (sin x) ^ 2 <= 1.
Proof. pose proof (sin_cos_sqr x). pose proof (pow2_ge_0 (sin x)).
  pose proof (pow2_ge_0 (cos x)). lra. Qed.

Lemma sqr_cos_bound (x : R) : 0 <= (cos x) ^ 2 <= 1.
Proof. pose proof (sin_cos_sqr x). pose proof (pow2_ge_0 (sin x)).
  pose proof (pow2_ge_0 (cos x)). lra. Qed.

(** The argument of the square root stays in [0, 1], so that the arcsine
    is taken inside its domain, whatever the coordinates. *)
Lemma hav_a_bound (lat1 lon1 lat2 lon2 : R) :
  0 <= hav_a lat1 lon1 lat2 lon2 <= 1.
Proof.
  rewrite hav_a_convex; cbv zeta.
  set (s := (sin (radians (lon2 - lon1) / 2)) ^ 2).
  set (u := (sin ((radians lat2 - radians lat1) / 2)) ^ 2).
  set (v := (cos ((radians lat2 + radians lat1) / 2)) ^ 2).
  assert (0 <= s <= 1) by apply sqr_sin_bound.
  assert (0 <= u <= 1) by apply sqr_sin_bound.
  assert (0 <= v <= 1) by apply sqr_cos_bound.
  nra.
Qed.

Lemma asin_nonneg (x : R) : 0 <= x -> 0 <= asin x.
Proof.
  intros Hx. pose proof PI_RGT_0 as Hpi.
  unfold asin. destruct (Rle_dec x (-1)) as [?|_]; [lra|].
  destruct (Rle_dec 1 x) as [?|Hlt]; [lra|].
  destruct (Req_dec x 0) as [->|Hne].
  - unfold Rdiv. rewrite Rmult_0_l, atan_0. lra.
  - assert (0 < 1 - x²) by (unfold Rsqr; nra).
    assert (0 < sqrt (1 - x²)) by (apply sqrt_lt_R0; assumption).
    assert (0 < x / sqrt (1 - x²)) by (apply Rdiv_lt_0_compat; lra).
    rewrite <- atan_0. left. apply atan_increasing. assumption.
Qed.

Lemma haversine_distance_nonneg (lat1 lon1 lat2 lon2 : R) :
  0 <= haversine_distance lat1 lon1 lat2 lon2.
Proof.
  unfold haversine_distance, R_earth; cbv zeta.
  pose proof (asin_nonneg _ (sqrt_pos (hav_a lat1 lon1 lat2 lon2))). nra.
Qed.

Lemma hav_a_same (lat lon : R) : hav_a lat lon lat lon = 0.
Proof.
  unfold hav_a; cbv zeta.
  replace (lat - lat) with 0 by lra. replace (lon - lon) with 0 by lra.
  rewrite radians_0. replace (0 / 2) with 0 by lra. rewrite sin_0. ring.
Qed.

Lemma haversine_distance_same (lat lon : R) :
  haversine_distance lat lon lat lon = 0.
Proof.
  unfold haversine_distance; cbv zeta.
  rewrite hav_a_same, sqrt_0, asin_0. ring.
Qed.

End haversine_facts.

Lemma cos_half_angle (x : R) : cos x = 1 - 2 * (sin (x / 2)) ^ 2.
Proof.
  replace x with (2 * (x / 2)) at 1 by lra. rewrite cos_2a_sin. ring.
Qed.

(** C4: over the reals, [haversine_distance] is the haversine formula
    [2 * R * asin (sqrt (sin^2 (dlat / 2) + cos lat1 * cos lat2 * sin^2 (dlon / 2)))]
    with [R = 6371], where the two latitudes and the two differences,
    given in degrees, are first multiplied by [PI / 180]; the arcsine is
    taken of a number between 0 and 1, and the result is the great-circle
    distance: the angle [d / R] lies between 0 and [PI] and its cosine is
    the one the spherical law of cosines gives for the two points. *)
Theorem haversine_distance_formula (lat1 lon1 lat2 lon2 : R) :
  let phi1 := lat1 * PI / 180 in
  let phi2 := lat2 * PI / 180 in
  let dphi := (lat2 - lat1) * PI / 180 in
  let dlam := (lon2 - lon1) * PI / 180 in
  let a := (sin (dphi / 2)) ^ 2 + cos phi1 * cos phi2 * (sin (dlam / 2)) ^ 2 in
  let d := Haversine.haversine_distance lat1 lon1 lat2 lon2 in
  d = 2 * 6371 * asin (sqrt a) /\
  0 <= a <= 1 /\
  0 <= d / 6371 <= PI /\
  cos (d / 6371) = sin phi1 * sin phi2 + cos phi1 * cos phi2 * cos dlam.
Proof.
  intros phi1 phi2 dphi dlam a d.
  assert (Haversine.hav_a lat1 lon1 lat2 lon2 = a) as Ha by reflexivity.
  assert (0 <= a <= 1) as Hb by (rewrite <- Ha; apply hav_a_bound).
  assert (d = 2 * 6371 * asin (sqrt a)) as Hd.
  { unfold d, Haversine.haversine_distance, Haversine.R_earth; cbv zeta.
    rewrite Ha. ring. }
  assert (0 <= sqrt a <= 1) as Hs.
  { split; [apply sqrt_pos|]. rewrite <- sqrt_1. apply sqrt_le_1_alt. lra. }
  assert (d / 6371 = 2 * asin (sqrt a)) as Hc by (rewrite Hd; field).
  split; [exact Hd|]. split; [exact Hb|]. split.
  - rewrite Hc. pose proof (asin_nonneg (sqrt a) (proj1 Hs)).
    pose proof (asin_bound (sqrt a)). lra.
  - rewrite Hc, cos_2a_sin, sin_asin by lra.
    replace (2 * sqrt a * sqrt a) with (2 * (sqrt a * sqrt a)) by ring.
    rewrite sqrt_sqrt by lra.
    rewrite (cos_half_angle dlam).
    assert ((sin (dphi / 2)) ^ 2 = (1 - cos (phi2 - phi1)) / 2) as Hphi.
    { replace (phi2 - phi1) with dphi by (unfold dphi, phi1, phi2; lra).
      rewrite (cos_half_angle dphi). lra. }
    unfold a. rewrite Hphi, cos_minus. field.
Qed.

(** C10: over the reals, [haversine_distance] is symmetric in its two
    points, is never negative, and is 0 between a point and itself. *)
Theorem haversine_distance_sym_nonneg_zero :
  (forall lat1 lon1 lat2 lon2,
      Haversine.haversine_distance lat1 lon1 lat2 lon2
      = Haversine.haversine_distance lat2 lon2 lat1 lon1) /\
  (forall lat1 lon1 lat2 lon2,
      0 <= Haversine.haversine_distance lat1 lon1 lat2 lon2) /\
  (forall lat lon, Haversine.haversine_distance lat lon lat lon = 0).
Proof.
  split; [|split].
  - intros. unfold Haversine.haversine_distance; cbv zeta.
    by rewrite hav_a_sym.
  - apply haversine_distance_nonneg.
  - apply haversine_distance_same.
Qed.

(** ** Sorting *)

Section stable_sort_facts.
  Context {A : Type} (le : relation A) `{!forall x y, Decision (le x y)}.

Lemma insert_by_perm (x : A) (l : list A) : insert_by le x l ≡ₚ x :: l.
Proof.
  induction l as [|y l IH]; simpl; [done|].
  case_decide; [done|]. rewrite IH. apply Permutation_swap.
Qed.

Lemma sort_by_perm (l : list A) : sort_by le l ≡ₚ l.
Proof.
  induction l as [|x l IH]; simpl; [done|].
  by rewrite insert_by_perm, IH.
Qed.

Lemma sort_by_elem_of (l : list A) (x : A) : x ∈ sort_by le l <-> x ∈ l.
Proof. by rewrite sort_by_perm. Qed.

Lemma sort_by_length (l : list A) : length (sort_by le l) = length l.
Proof. by rewrite sort_by_perm. Qed.

Context `{!Total le, !Transitive le}.

Lemma insert_by_sorted (x : A) (l : list A) :
  StronglySorted le l -> StronglySorted le (insert_by le x l).
Proof.
  induction l as [|y l IH]; simpl; intros Hl.
  - repeat constructor.
  - apply StronglySorted_inv in Hl as [Hl Hy].
    case_decide as Hxy.
    + constructor; [by constructor|].
      constructor; [done|].
      eapply Forall_impl; [exact Hy|]. intros z Hz. by transitivity y.
    + constructor; [by apply IH|].
      rewrite insert_by_perm. constructor; [|done].
      by destruct (total le x y).
Qed.

Lemma sort_by_sorted (l : list A) : StronglySorted le (sort_by le l).
Proof.
  induction l as [|x l IH]; simpl; [constructor|].
  by apply insert_by_sorted.
Qed.

(** The first row of a sorted frame is a least one. *)
Lemma sort_by_head_least (l l' : list A) (x : A) :
  sort_by le l = x :: l' -> forall y, y ∈ l -> le x y.
Proof.
  intros Hs y Hy. pose proof (sort_by_sorted l) as Hsorted.
  rewrite <- sort_by_elem_of, Hs in Hy. rewrite Hs in Hsorted.
  apply StronglySorted_inv in Hsorted as [_ Hall].
  apply elem_of_cons in Hy as [->|Hy].
  - by destruct (total le x x).
  - rewrite Forall_forall in Hall. by apply Hall.
Qed.

(** Rows kept by [take] come before the rows dropped. *)
Lemma sort_by_take_drop (l : list A) (k : nat) (x y : A) :
  x ∈ take k (sort_by le l) -> y ∈ drop k (sort_by le l) -> le x y.
Proof.
  intros Hx Hy. pose proof (sort_by_sorted l) as Hsorted.
  rewrite <- (take_drop k (sort_by le l)) in Hsorted.
  eapply StronglySorted_app_1_elem_of; eauto.
Qed.
End stable_sort_facts.

(** ** The two sort orders are total preorders *)

#[global] Instance distance_le_total : Total distance_le.
Proof. intros c1 c2. unfold distance_le. lra. Qed.

#[global] Instance distance_le_trans : Transitive distance_le.
Proof. intros c1 c2 c3. unfold distance_le. lra. Qed.

Lemma lag_lt_trichotomy (a b : option Z) : lag_lt a b \/ a = b \/ lag_lt b a.
Proof.
  destruct a as [x|], b as [y|]; simpl; auto.
  destruct (Z.lt_trichotomy x y) as [?|[->|?]]; auto.
Qed.

Lemma lag_lt_trans (a b c : option Z) : lag_lt a b -> lag_lt b c -> lag_lt a c.
Proof. destruct a, b, c; simpl; try tauto; lia. Qed.

#[global] Instance sort_key_le_total : Total sort_key_le.
Proof.
  intros r1 r2. unfold sort_key_le.
  destruct (Rtotal_order (distance_km (top r1)) (distance_km (top r2)))
    as [?|[Hd|?]]; [left; by left| |right; left; lra].
  destruct (lag_lt_trichotomy (lag_days r1) (lag_days r2)) as [?|[Hl|?]].
  - left. right. auto.
  - destruct (Rle_or_lt (cloud_cover (cand (top r1))) (cloud_cover (cand (top r2)))).
    + left. right. auto.
    + right. right. split; [done|]. right. split; [done|lra].
  - right. right. auto.
Qed.

#[global] Instance sort_key_le_trans : Transitive sort_key_le.
Proof.
  intros r1 r2 r3. unfold sort_key_le.
  intros [?|[Hd12 H12]] [?|[Hd23 H23]]; [left; lra|left; lra|left; lra|].
  right. split; [lra|].
  destruct H12 as [?|[Hl12 ?]], H23 as [?|[Hl23 ?]].
  - left. by eapply lag_lt_trans.
  - left. by rewrite <- Hl23.
  - left. by rewrite Hl12.
  - right. split; [congruence|lra].
Qed.

(** ** Reading the records *)

Lemma to_dict_fields (s : site) (k : string) (v : value) :
  to_dict s !! k = Some v -> k ∈ site_fields.
Proof.
  unfold to_dict, site_fields. intros H.
  repeat (rewrite lookup_insert in H; case_decide; [subst; set_solver|]).
  by rewrite lookup_empty in H.
Qed.

Lemma site_fields_not_match_fields (k : string) :
  k ∈ site_fields -> k ∉ match_fields.
Proof.
  intros H. revert k H. apply Forall_forall.
  unfold site_fields, match_fields.
  repeat constructor; rewrite !elem_of_cons, elem_of_nil; intuition discriminate.
Qed.

Lemma dict_display_other (d : gmap string value) (kvs : list (string * value))
    (k : string) :
  k ∉ kvs.*1 -> dict_display d kvs !! k = d !! k.
Proof.
  unfold dict_display. revert d.
  induction kvs as [|[k' v'] kvs IH]; intros d Hk; simpl in *; [done|].
  apply not_elem_of_cons in Hk as [Hne Hk].
  rewrite IH by done. by rewrite lookup_insert_ne.
Qed.

(** The site's own columns come through both kinds of record. *)
Lemma null_match_site_field (s : site) (k : string) (v : value) :
  to_dict s !! k = Some v -> null_match s !! k = Some v.
Proof.
  intros H. unfold null_match. rewrite dict_display_other; [done|].
  apply site_fields_not_match_fields. by eapply to_dict_fields.
Qed.

Lemma matched_record_site_field (s : site) (best : ranked) (lag : Z)
    (k : string) (v : value) :
  to_dict s !! k = Some v -> matched_record s best lag !! k = Some v.
Proof.
  intros H. unfold matched_record. rewrite dict_display_other; [done|].
  apply site_fields_not_match_fields. by eapply to_dict_fields.
Qed.

Lemma null_match_not_match (s : site) : ~ is_match (null_match s).
Proof. intros (v & Hv & Hn). by inversion Hv; subst. Qed.

(** ** What one turn of the loop computes *)

Section match_site_facts.
  Variables (meta : list patch) (search_radius_deg : R)
            (max_candidates : Z) (max_cloud_cover : R).

Local Abbreviation accept s := (acceptable s search_radius_deg max_cloud_cover).
Local Abbreviation step s :=
  (match_site meta search_radius_deg max_candidates max_cloud_cover s).
Local Abbreviation chosen s :=
  (selection meta search_radius_deg max_candidates max_cloud_cover s).

Lemma cloud_filter_after_box (s : site) (l : list patch) :
  filter (fun c => cloud_cover (cand c) <= max_cloud_cover)
    (with_distance (Latitude s) (Longitude s) <$>
       filter (in_box (Latitude s) (Longitude s) search_radius_deg) l)
  = with_distance (Latitude s) (Longitude s) <$> filter (accept s) l.
Proof.
  induction l as [|p l IH]; [done|].
  rewrite (filter_cons (in_box _ _ _)), (filter_cons (acceptable _ _ _)).
  destruct (decide (in_box (Latitude s) (Longitude s) search_radius_deg p)) as [Hb|Hb].
  - rewrite fmap_cons, filter_cons. simpl cand at 1.
    destruct (decide (cloud_cover p <= max_cloud_cover)) as [Hc|Hc].
    + rewrite decide_True by (split; done). by rewrite fmap_cons, IH.
    + rewrite decide_False by (intros [_ ?]; done). done.
  - rewrite decide_False by (intros [? _]; done). done.
Qed.

Lemma match_site_unfold (s : site) :
  step s =
    if decide (filter (accept s) meta = []) then Ok (null_match s)
    else match chosen s with
         | [] => Raise IndexError
         | best :: _ =>
             lag ← int_of_cell (lag_days best);
             Ok (matched_record s best lag)
         end.
Proof.
  unfold match_site, selection; cbv zeta.
  rewrite cloud_filter_after_box.
  destruct (filter (accept s) meta) as [|q l'] eqn:Hacc.
  - rewrite (decide_True (P := [] = [])) by done.
    destruct (decide (length (filter (in_box _ _ _) meta) = 0%nat)); [done|].
    by rewrite decide_True by done.
  - rewrite (decide_False (P := q :: l' = [])) by done.
    assert (q ∈ filter (accept s) meta) as Hq by (rewrite Hacc; left).
    apply list_elem_of_filter in Hq as [[Hb _] Hq].
    destruct (filter (in_box _ _ _) meta) as [|p l] eqn:Hbox.
    + assert (q ∈ filter (in_box (Latitude s) (Longitude s) search_radius_deg) meta)
        as Hin by (apply list_elem_of_filter; done).
      rewrite Hbox in Hin. by apply elem_of_nil in Hin.
    + by rewrite !decide_False by done.
Qed.
End match_site_facts.

(** ** What [nsmallest] keeps *)

Section nsmallest_facts.
  Context {A : Type} (le : relation A) `{!forall x y, Decision (le x y)}.
  Context `{!Total le, !Transitive le}.

Lemma filter_all (P : A -> Prop) `{!forall x, Decision (P x)} (l : list A) :
  Forall P l -> filter P l = l.
Proof.
  induction 1 as [|x l Hx _ IH]; [done|].
  by rewrite filter_cons_True, IH.
Qed.

Lemma filter_some (P : A -> Prop) `{!forall x, Decision (P x)} (l : list A) (x : A) :
  x ∈ l -> P x -> (0 < length (filter P l))%nat.
Proof.
  intros Hx HP.
  assert (x ∈ filter P l) as Hin by (apply list_elem_of_filter; done).
  destruct (filter P l); [by apply elem_of_nil in Hin|simpl; lia].
Qed.

(** A row that at most [k] rows do not exceed is among the first [k]
    rows of the sorted frame. *)
Lemma sort_by_take_keeps (l : list A) (k : nat) (c : A) :
  c ∈ l ->
  (length (filter (fun y => le y c) l) <= k)%nat ->
  c ∈ take k (sort_by le l).
Proof.
  intros Hc Hcount.
  pose proof (sort_by_perm le l) as Hperm.
  rewrite <- Hperm in Hc, Hcount.
  rewrite <- (take_drop k (sort_by le l)) in Hc.
  apply elem_of_app in Hc as [Hc|Hc]; [done|exfalso].
  rewrite <- (take_drop k (sort_by le l)), filter_app, length_app in Hcount.
  assert (Forall (fun y => le y c) (take k (sort_by le l))) as Hall.
  { apply Forall_forall. intros x Hx. by eapply sort_by_take_drop. }
  rewrite (filter_all _ _ Hall) in Hcount.
  assert (0 < length (filter (fun y => le y c) (drop k (sort_by le l))))%nat as Hpos.
  { eapply filter_some; [exact Hc|]. by destruct (total le c c). }
  assert (k < length (sort_by le l))%nat as Hlen.
  { destruct (decide (k < length (sort_by le l))%nat) as [|Hge]; [done|].
    rewrite drop_ge in Hc by lia. by apply elem_of_nil in Hc. }
  rewrite length_take in Hcount. lia.
Qed.
End nsmallest_facts.

(** ** The best candidate *)

Section selection_facts.
  Variables (meta : list patch) (search_radius_deg : R)
            (max_candidates : Z) (max_cloud_cover : R).

Local Abbreviation accept s := (acceptable s search_radius_deg max_cloud_cover).
Local Abbreviation step s :=
  (match_site meta search_radius_deg max_candidates max_cloud_cover s).
Local Abbreviation chosen s :=
  (selection meta search_radius_deg max_candidates max_cloud_cover s).
Local Abbreviation scored s :=
  (with_distance (Latitude s) (Longitude s) <$> filter (accept s) meta).

Lemma selection_elem (s : site) (r : ranked) :
  r ∈ chosen s -> exists p, p ∈ meta /\ accept s p /\ r = ranked_of s p.
Proof.
  unfold selection, sort_values, nsmallest.
  rewrite sort_by_elem_of, list_elem_of_fmap. intros (c & -> & Hc).
  apply subseteq_take in Hc. rewrite sort_by_elem_of in Hc.
  apply list_elem_of_fmap in Hc as (p & -> & Hp).
  apply list_elem_of_filter in Hp as [Hacc Hp]. by exists p.
Qed.

Lemma selection_length (s : site) :
  length (chosen s)
  = Nat.min (Z.to_nat max_candidates) (length (filter (accept s) meta)).
Proof.
  unfold selection, sort_values, nsmallest.
  by rewrite sort_by_length, length_fmap, length_take, sort_by_length, length_fmap.
Qed.

(** The first row is a least row of what [nsmallest] kept. *)
Lemma selection_head_least (s : site) (best : ranked) (rest : list ranked)
    (p : patch) :
  chosen s = best :: rest ->
  with_distance (Latitude s) (Longitude s) p
    ∈ nsmallest max_candidates (scored s) ->
  sort_key_le best (ranked_of s p).
Proof.
  intros Hsel Hp. eapply (sort_by_head_least sort_key_le); [exact Hsel|].
  unfold ranked_of. by apply list_elem_of_fmap_2.
Qed.

(** An acceptable patch that at most [max_candidates] acceptable patches
    are as near as survives [nsmallest]. *)
Lemma nsmallest_keeps (s : site) (p : patch) :
  p ∈ meta -> accept s p ->
  (Z.of_nat (as_near_count meta search_radius_deg max_cloud_cover s p)
   <= max_candidates)%Z ->
  with_distance (Latitude s) (Longitude s) p
    ∈ nsmallest max_candidates (scored s).
Proof.
  intros Hp Hacc Hcount. unfold nsmallest, as_near_count in *.
  apply (sort_by_take_keeps distance_le).
  - apply list_elem_of_fmap_2, list_elem_of_filter. done.
  - assert (forall l : list patch,
      length (filter (fun y => distance_le y (with_distance (Latitude s) (Longitude s) p))
                (with_distance (Latitude s) (Longitude s) <$> l))
      = length (filter (fun q => site_distance s q <= site_distance s p) l)) as ->.
    { induction l as [|q l IH]; [done|].
      rewrite fmap_cons, !filter_cons.
      unfold distance_le at 1, site_distance at 1 2. simpl distance_km.
      destruct (decide (_ <= _)); simpl; by rewrite IH. }
    lia.
Qed.

Lemma match_site_inv (s : site) (r : gmap string value) :
  step s = Ok r ->
  (filter (accept s) meta = [] /\ r = null_match s) \/
  (exists p lag rest,
      chosen s = ranked_of s p :: rest /\ p ∈ meta /\ accept s p /\
      site_lag s p = Some lag /\
      r = matched_record s (ranked_of s p) lag).
Proof.
  rewrite match_site_unfold. case_decide as Hnil.
  - intros [= <-]. by left.
  - destruct (chosen s) as [|best rest] eqn:Hsel; [done|].
    assert (best ∈ chosen s) as Hin by (rewrite Hsel; left).
    apply selection_elem in Hin as (p & Hp & Hacc & ->).
    destruct (lag_days (ranked_of s p)) as [lag|] eqn:Hlag; [|done].
    intros [= <-]. right. by exists p, lag, rest.
Qed.

End selection_facts.

(** ** The loop *)

Section loop_facts.
  Variables (meta : list patch) (search_radius_deg : R)
            (max_candidates : Z) (max_cloud_cover : R).

Local Abbreviation step s :=
  (match_site meta search_radius_deg max_candidates max_cloud_cover s).
Local Abbreviation loop rows acc :=
  (iterrows_loop meta search_radius_deg max_candidates max_cloud_cover rows acc).

Lemma iterrows_loop_inv (rows : list site) (acc out : list (gmap string value)) :
  loop rows acc = Ok out ->
  exists rs, out = acc ++ rs /\ Forall2 (fun s r => step s = Ok r) rows rs.
Proof.
  revert acc. induction rows as [|s rows IH]; intros acc; simpl.
  - intros [= <-]. exists []. by rewrite app_nil_r.
  - destruct (step s) as [r|e] eqn:Hs; simpl; [|done].
    intros (rs & -> & Hrs)%IH. exists (r :: rs).
    split; [by rewrite <- app_assoc|by constructor].
Qed.

Lemma iterrows_loop_Ok (rows : list site) (acc rs : list (gmap string value)) :
  Forall2 (fun s r => step s = Ok r) rows rs -> loop rows acc = Ok (acc ++ rs).
Proof.
  intros H. revert acc.
  induction H as [|s r rows rs Hs _ IH]; intros acc; simpl.
  - by rewrite app_nil_r.
  - rewrite Hs; simpl. by rewrite IH, <- app_assoc.
Qed.

Lemma match_nearest_patches_inv (sites : list site) (out : list (gmap string value)) :
  match_nearest_patches sites meta search_radius_deg max_candidates max_cloud_cover
    = Ok out ->
  Forall2 (fun s r => step s = Ok r) sites out.
Proof.
  unfold match_nearest_patches. by intros (rs & -> & Hrs)%iterrows_loop_inv.
Qed.

Lemma match_nearest_patches_Ok (sites : list site) (out : list (gmap string value)) :
  Forall2 (fun s r => step s = Ok r) sites out ->
  match_nearest_patches sites meta search_radius_deg max_candidates max_cloud_cover
    = Ok out.
Proof. intros H. unfold match_nearest_patches. by rewrite (iterrows_loop_Ok _ [] out). Qed.

End loop_facts.

(** ** The match fields of a record *)


Lemma matched_record_product_id (s : site) (best : ranked) (lag : Z) :
  matched_record s best lag !! "product_id"%string
  = Some (VStr (product_id (cand (top best)))).
Proof. reflexivity. Qed.

Lemma matched_record_eo_timestamp (s : site) (best : ranked) (lag : Z) :
  matched_record s best lag !! "eo_timestamp"%string
  = Some (timestamp_value (timestamp_dt (cand (top best)))).
Proof. reflexivity. Qed.

Lemma matched_record_lag_days (s : site) (best : ranked) (lag : Z) :
  matched_record s best lag !! "lag_days"%string = Some (VInt lag).
Proof. reflexivity. Qed.

Lemma matched_record_cloud_cover (s : site) (best : ranked) (lag : Z) :
  matched_record s best lag !! "cloud_cover"%string
  = Some (VFloat (cloud_cover (cand (top best)))).
Proof. reflexivity. Qed.

Lemma matched_record_distance_km (s : site) (best : ranked) (lag : Z) :
  matched_record s best lag !! "distance_km"%string
  = Some (VFloat (distance_km (top best))).
Proof. reflexivity. Qed.

Lemma matched_record_parquet_url (s : site) (best : ranked) (lag : Z) :
  matched_record s best lag !! "parquet_url"%string
  = Some (VStr (parquet_url (cand (top best)))).
Proof. reflexivity. Qed.

Lemma matched_record_parquet_row (s : site) (best : ranked) (lag : Z) :
  matched_record s best lag !! "parquet_row"%string
  = Some (VInt (parquet_row (cand (top best)))).
Proof. reflexivity. Qed.

Lemma matched_record_grid_cell (s : site) (best : ranked) (lag : Z) :
  matched_record s best lag !! "grid_cell"%string
  = Some (VStr (grid_cell (cand (top best)))).
Proof. reflexivity. Qed.


Lemma site_lag_Some (s : site) (p : patch) (lag : Z) :
  site_lag s p = Some lag <->
  exists t, timestamp_dt p = Some t /\
            lag = timedelta_days (Z.abs (t - Sample_midpoint s)).
Proof.
  unfold site_lag. destruct (timestamp_dt p) as [t|]; simpl.
  - split; [intros [= <-]; by exists t|intros (t' & [= <-] & ->); done].
  - split; [done|intros (t' & ? & _); done].
Qed.

(** ** Running the routine on sample data *)

Ltac compute_lags :=
  repeat match goal with
  | |- context [timedelta_days ?x] =>
      let v := eval vm_compute in (timedelta_days x) in
      change (timedelta_days x) with v
  end.

Ltac solve_cmp :=
  unfold acceptable, in_box, distance_le, sort_key_le, lag_lt, site_distance;
  simpl; compute_lags;
  first [lra | lia | intuition (first [lra | lia | discriminate | congruence])].

Ltac decide_all :=
  repeat match goal with
  | |- context [decide ?P] =>
      first [ rewrite (decide_True (P := P)) by solve_cmp
            | rewrite (decide_False (P := P)) by solve_cmp ]
  end.

Ltac run_match_site :=
  rewrite match_site_unfold; unfold selection, sort_values, nsmallest;
  rewrite ?filter_cons, ?filter_nil;
  repeat (progress (decide_all; simpl));
  compute_lags; try reflexivity.

(** With the default [max_candidates] the patch of the same day wins. *)
Lemma demo_default_run :
  match_nearest_patches [demo_site]
    [patch_late; patch_same_day; patch_cloudy; patch_far] 1 1000 50
  = Ok [matched_record demo_site (ranked_of demo_site patch_same_day) 0].
Proof.
  apply match_nearest_patches_Ok. repeat constructor. run_match_site.
Qed.

(** With [max_candidates = 1] the later patch, first in the metadata, is
    the only one to survive [nsmallest]. *)
Lemma demo_single_candidate_run :
  match_nearest_patches [demo_site] [patch_late; patch_same_day] 1 1 50
  = Ok [matched_record demo_site (ranked_of demo_site patch_late) 10].
Proof.
  apply match_nearest_patches_Ok. repeat constructor. run_match_site.
Qed.


Lemma demo_unparsed_run :
  match_nearest_patches [demo_site] [patch_unparsed] 1 1000 50 = Raise ValueError.
Proof.
  unfold match_nearest_patches; simpl.
  assert (match_site [patch_unparsed] 1 1000 50 demo_site = Raise ValueError) as ->
    by run_match_site.
  reflexivity.
Qed.

(** ** The records of a returned table *)

Lemma returned_records (sites : list site) (meta : list patch)
    (search_radius_deg : R) (max_candidates : Z) (max_cloud_cover : R)
    (out : list (gmap string value)) :
  match_nearest_patches sites meta search_radius_deg max_candidates max_cloud_cover
    = Ok out ->
  Forall2 (record_of_site meta search_radius_deg max_candidates max_cloud_cover)
    sites out.
Proof.
  intros H%match_nearest_patches_inv.
  eapply Forall2_impl; [exact H|]. intros s r Hs; simpl in Hs.
  apply match_site_inv in Hs as [[Hnil ->]|(p & lag & rest & Hsel & Hp & Hacc & Hlag & ->)].
  - by left.
  - apply site_lag_Some in Hlag as (t & Ht & ->). right. by exists p, t, rest.
Qed.

Lemma acceptable_filter_nil (meta : list patch) (rad cloud : R) (s : site) :
  filter (acceptable s rad cloud) meta = [] <->
  ~ exists p, p ∈ meta /\ acceptable s rad cloud p.
Proof.
  split.
  - intros Hnil (p & Hp & Hacc). by eapply filter_nil_not_elem_of.
  - intros Hno. destruct (filter _ meta) as [|p l] eqn:Hf; [done|].
    exfalso. apply Hno. exists p.
    assert (p ∈ filter (acceptable s rad cloud) meta) as Hin by (rewrite Hf; left).
    apply list_elem_of_filter in Hin. tauto.
Qed.

Lemma record_of_site_match (meta : list patch) (rad : R) (n : Z) (cloud : R)
    (s : site) (r : gmap string value) :
  record_of_site meta rad n cloud s r -> is_match r ->
  exists p t rest,
    selection meta rad n cloud s = ranked_of s p :: rest /\
    p ∈ meta /\ acceptable s rad cloud p /\ timestamp_dt p = Some t /\
    r = matched_record s (ranked_of s p) (lag_in_days s t).
Proof.
  intros [[_ ->]|H] Hm; [|done]. by apply null_match_not_match in Hm.
Qed.

Lemma in_box_within (rad : R) (s : site) (p : patch) :
  in_box (Latitude s) (Longitude s) rad p <-> within_box rad s p.
Proof.
  unfold in_box, within_box. split.
  - intros (? & ? & ? & ?). split; apply Rabs_le; lra.
  - unfold Rabs. intros [H1 H2].
    destruct (Rcase_abs (centre_lat p - Latitude s)),
             (Rcase_abs (centre_lon p - Longitude s)); lra.
Qed.

Lemma timedelta_days_whole (d : Z) : (0 <= d)%Z -> whole_days d (timedelta_days d).
Proof.
  intros Hd. unfold whole_days, timedelta_days, NS_PER_DAY.
  pose proof (Z.div_mod d 86400000000000 ltac:(lia)) as Hdm.
  pose proof (Z.mod_pos_bound d 86400000000000 ltac:(lia)) as Hm.
  split; [apply Z.div_pos; lia|lia].
Qed.

(** C2, as corrected: over the reals, every non-null match of a returned
    table comes from a patch whose centre is within [search_radius_deg]
    degrees of the site, in latitude and in longitude. *)
Theorem matched_patch_within_box (sites : list site) (meta : list patch)
    (search_radius_deg : R) (max_candidates : Z) (max_cloud_cover : R)
    (out : list (gmap string value)) :
  match_nearest_patches sites meta search_radius_deg max_candidates max_cloud_cover
    = Ok out ->
  Forall2 (fun site_row r =>
             is_match r ->
             exists p, p ∈ meta /\ matches_patch site_row r p /\
                       within_box search_radius_deg site_row p)
    sites out.
Proof.
  intros H%returned_records. eapply Forall2_impl; [exact H|].
  intros s r Hr Hm.
  destruct (record_of_site_match _ _ _ _ _ _ Hr Hm)
    as (p & t & rest & _ & Hp & [Hbox _] & Ht & ->).
  exists p. split; [done|]. split; [by exists t|]. by apply in_box_within.
Qed.

Lemma matched_patch_within_box_witness :
  match_nearest_patches [demo_site]
    [patch_late; patch_same_day; patch_cloudy; patch_far] 1 1000 50
  = Ok [matched_record demo_site (ranked_of demo_site patch_same_day) 0] /\
  Forall2 (fun site_row r =>
             is_match r ->
             exists p, p ∈ [patch_late; patch_same_day; patch_cloudy; patch_far] /\
                       matches_patch site_row r p /\ within_box 1 site_row p)
    [demo_site] [matched_record demo_site (ranked_of demo_site patch_same_day) 0].
Proof.
  split; [exact demo_default_run|].
  exact (matched_patch_within_box _ _ _ _ _ _ demo_default_run).
Defined.

(** The powers of two in the value of a double. *)
Ltac eval_powers :=
  repeat match goal with
         | |- context [IZR (2 ^ ?e)] =>
             let v := eval vm_compute in (2 ^ e)%Z in
             change (2 ^ e)%Z with v
         end.

(** The loop's turn is the two filters followed by [best_match]. *)
Lemma match_site_best_match (meta : list patch) (search_radius_deg : R)
    (max_candidates : Z) (max_cloud_cover : R) (site_row : site) :
  match_site meta search_radius_deg max_candidates max_cloud_cover site_row
  = let boxed :=
      filter (in_box (Latitude site_row) (Longitude site_row) search_radius_deg) meta in
    if decide (length boxed = 0%nat) then Ok (null_match site_row) else
    let candidates :=
      filter (fun c => cloud_cover (cand c) <= max_cloud_cover)
        (with_distance (Latitude site_row) (Longitude site_row) <$> boxed) in
    if decide (length candidates = 0%nat) then Ok (null_match site_row) else
    best_match max_candidates site_row candidates.
Proof. reflexivity. Qed.

(** C2 as it is stated fails in double precision, where the mask compares
    with the rounded bounds. With the radius and the thresholds of [main],
    the patch at the double [7.37142 + 1.0] passes both filters for a site
    at latitude 7.37142 and is its only candidate; the rest of the loop
    makes it the site's match; and it lies more than one degree from the
    site. *)
Lemma rounded_box_accepts_outside :
  Binary64.candidates [patch_edge] f64_7_37142 (S754_zero false) f64_1 f64_50
  = [patch_edge] /\
  (exists r,
      best_match 1000 site_edge
        (with_distance (Latitude site_edge) (Longitude site_edge)
           <$> [patch_of_binary64 patch_edge])
      = Ok r /\
      is_match r /\ matches_patch site_edge r (patch_of_binary64 patch_edge)) /\
  ~ within_box 1 site_edge (patch_of_binary64 patch_edge).
Proof.
  split; [vm_compute; reflexivity|]. split.
  - exists (matched_record site_edge (ranked_of site_edge (patch_of_binary64 patch_edge))
              (lag_in_days site_edge 0)).
    split; [reflexivity|]. split.
    + eexists. split; [apply matched_record_product_id|reflexivity].
    + by exists 0%Z.
  - unfold within_box. intros [H _]. revert H.
    unfold patch_of_binary64, site_edge, patch_edge, Binary64.to_real,
      f64_8_37142, f64_7_37142. simpl.
    eval_powers. unfold Rabs. destruct (Rcase_abs _); lra.
Qed.

(** The same at a radius of 0.2: the patch at the double [0.1 + 0.2]
    passes the mask for a site at 0.1. *)
Lemma rounded_box_accepts_outside_small :
  Binary64.candidates [patch_edge_small] f64_0_1 (S754_zero false) f64_0_2 f64_50
  = [patch_edge_small] /\
  ~ Rabs (Binary64.to_real (Binary64.centre_lat patch_edge_small)
          - Binary64.to_real f64_0_1) <= Binary64.to_real f64_0_2.
Proof.
  split; [vm_compute; reflexivity|].
  unfold Binary64.to_real, patch_edge_small, f64_0_3, f64_0_1, f64_0_2. simpl.
  eval_powers. unfold Rabs. destruct (Rcase_abs _); lra.
Qed.

(** C3: every non-null match of a returned table records a cloud cover
    that is the matched patch's and is at most [max_cloud_cover]; in the
    call made by [main] the bound is 50. *)
Theorem matched_cloud_cover_bounded (sites : list site) (meta : list patch)
    (search_radius_deg : R) (max_candidates : Z) (max_cloud_cover : R) :
  (forall out,
      match_nearest_patches sites meta search_radius_deg max_candidates
        max_cloud_cover = Ok out ->
      Forall2 (fun site_row r =>
                 is_match r ->
                 exists p, p ∈ meta /\ matches_patch site_row r p /\
                           r !! "cloud_cover"%string = Some (VFloat (cloud_cover p)) /\
                           cloud_cover p <= max_cloud_cover)
        sites out) /\
  (forall out,
      main_matches sites meta = Ok out ->
      Forall2 (fun site_row r =>
                 is_match r ->
                 exists c, r !! "cloud_cover"%string = Some (VFloat c) /\ c <= 50)
        sites out).
Proof.
  assert (forall rad n cloud out,
    match_nearest_patches sites meta rad n cloud = Ok out ->
    Forall2 (fun site_row r =>
               is_match r ->
               exists p, p ∈ meta /\ matches_patch site_row r p /\
                         r !! "cloud_cover"%string = Some (VFloat (cloud_cover p)) /\
                         cloud_cover p <= cloud)
      sites out) as Hgen.
  { intros rad n cloud out H%returned_records. eapply Forall2_impl; [exact H|].
    intros s r Hr Hm.
    destruct (record_of_site_match _ _ _ _ _ _ Hr Hm)
      as (p & t & rest & _ & Hp & [_ Hcloud] & Ht & ->).
    exists p. split; [done|]. split; [by exists t|]. by split. }
  split; [by apply Hgen|].
  intros out H. unfold main_matches in H.
  eapply Forall2_impl; [exact (Hgen _ _ _ _ H)|].
  intros s r Hr Hm. destruct (Hr Hm) as (p & _ & _ & Hc & Hle). by exists (cloud_cover p).
Qed.

Lemma matched_cloud_cover_bounded_witness :
  main_matches [demo_site] [patch_late; patch_same_day; patch_cloudy; patch_far]
  = Ok [matched_record demo_site (ranked_of demo_site patch_same_day) 0] /\
  Forall2 (fun site_row r =>
             is_match r ->
             exists c, r !! "cloud_cover"%string = Some (VFloat c) /\ c <= 50)
    [demo_site] [matched_record demo_site (ranked_of demo_site patch_same_day) 0].
Proof.
  split; [exact demo_default_run|].
  exact (proj2 (matched_cloud_cover_bounded _ _ 1 1000 50) _ demo_default_run).
Defined.

(** C6: in every non-null match of a returned table, [lag_days] is the
    number of whole days in the absolute difference between the matched
    patch's timestamp, recorded as [eo_timestamp], and the site's
    [Sample_midpoint]; it is not negative. *)
Theorem lag_days_is_whole_day_count (sites : list site) (meta : list patch)
    (search_radius_deg : R) (max_candidates : Z) (max_cloud_cover : R)
    (out : list (gmap string value)) :
  match_nearest_patches sites meta search_radius_deg max_candidates max_cloud_cover
    = Ok out ->
  Forall2 (fun site_row r =>
             is_match r ->
             exists p t lag,
               p ∈ meta /\ timestamp_dt p = Some t /\
               r = matched_record site_row (ranked_of site_row p) lag /\
               r !! "eo_timestamp"%string = Some (VTimestamp t) /\
               r !! "lag_days"%string = Some (VInt lag) /\
               whole_days (Z.abs (t - Sample_midpoint site_row)) lag)
    sites out.
Proof.
  intros H%returned_records. eapply Forall2_impl; [exact H|].
  intros s r Hr Hm.
  destruct (record_of_site_match _ _ _ _ _ _ Hr Hm)
    as (p & t & rest & _ & Hp & _ & Ht & ->).
  exists p, t, (lag_in_days s t). repeat split; try done.
  - rewrite matched_record_eo_timestamp. simpl. by rewrite Ht.
  - apply timedelta_days_whole. lia.
  - apply timedelta_days_whole. lia.
  - apply timedelta_days_whole. lia.
Qed.

Lemma lag_days_is_whole_day_count_witness :
  match_nearest_patches [demo_site] [patch_late; patch_same_day] 1 1 50
  = Ok [matched_record demo_site (ranked_of demo_site patch_late) 10] /\
  Forall2 (fun site_row r =>
             is_match r ->
             exists p t lag,
               p ∈ [patch_late; patch_same_day] /\ timestamp_dt p = Some t /\
               r = matched_record site_row (ranked_of site_row p) lag /\
               r !! "eo_timestamp"%string = Some (VTimestamp t) /\
               r !! "lag_days"%string = Some (VInt lag) /\
               whole_days (Z.abs (t - Sample_midpoint site_row)) lag)
    [demo_site] [matched_record demo_site (ranked_of demo_site patch_late) 10].
Proof.
  split; [exact demo_single_candidate_run|].
  exact (lag_days_is_whole_day_count _ _ _ _ _ _ demo_single_candidate_run).
Defined.

(** ** Null records and matched records *)




(** ** The best candidate is a lexicographic minimum *)




Lemma demo_acceptable_late : acceptable demo_site 1 50 patch_late.
Proof. solve_cmp. Qed.





(** ** The call can raise *)

(** C5, failing input: a site whose only acceptable patch has a timestamp
    that did not parse; [int(best["lag_days"])] raises and no table is
    returned. *)
Theorem unparsed_best_candidate_raises :
  acceptable demo_site 1 50 patch_unparsed /\
  match_nearest_patches [demo_site] [patch_unparsed] 1 1000 50 = Raise ValueError /\
  forall out, match_nearest_patches [demo_site] [patch_unparsed] 1 1000 50 <> Ok out.
Proof.
  split; [solve_cmp|]. rewrite demo_unparsed_run. split; [reflexivity|discriminate].
Qed.

(** What does hold of every returned table: one record per site, in
    order, with the site's ten columns unchanged and only the eight match
    fields added. *)
Lemma returned_table_keeps_sites (sites : list site) (meta : list patch)
    (search_radius_deg : R) (max_candidates : Z) (max_cloud_cover : R)
    (out : list (gmap string value)) :
  match_nearest_patches sites meta search_radius_deg max_candidates max_cloud_cover
    = Ok out ->
  length out = length sites /\
  Forall2 (fun site_row r =>
             (forall k v, to_dict site_row !! k = Some v -> r !! k = Some v) /\
             (forall k, k ∉ match_fields -> r !! k = to_dict site_row !! k))
    sites out.
Proof.
  intros H%returned_records. split; [symmetry; by eapply Forall2_length|].
  eapply Forall2_impl; [exact H|].
  intros s r [[_ ->]|(p & t & rest & _ & _ & _ & _ & ->)]; split.
  - intros k v. apply null_match_site_field.
  - intros k Hk. by apply dict_display_other.
  - intros k v. apply matched_record_site_field.
  - intros k Hk. by apply dict_display_other.
Qed.

(** ** Loading the sites *)

Example astype_str_examples :
  astype_str (Int64 1) = "1"%string /\ astype_str (Int64 (-12)) = "-12"%string /\
  astype_str (Float64 1) = "1.0"%string /\ astype_str (Float64 2047) = "2047.0"%string /\
  astype_str NaN = "nan"%string.
Proof. repeat split; reflexivity. Qed.

Lemma isin_AG_LAND_USES (cell : option string) :
  isin cell AG_LAND_USES <->
  cell = Some "Cropland"%string \/ cell = Some "Pasture"%string \/
  cell = Some "Plantation forest"%string.
Proof.
  unfold AG_LAND_USES. destruct cell as [s|]; simpl.
  - rewrite !elem_of_union, !elem_of_singleton. split.
    + intros [[->| ->]| ->]; auto.
    + intros [[= ->]|[[= ->]|[= ->]]]; auto.
  - split; [done|]. intros [?|[?|?]]; discriminate.
Qed.

Lemma file_rows_concat (paths : list (string * list Csv.row)) :
  file_rows paths = file_row <$> concat (read_frame <$> paths).
Proof.
  unfold file_rows. induction paths as [|path paths IH]; [done|].
  rewrite fmap_cons, concat_cons, fmap_app, <- IH.
  change (flat_map ?f (path :: paths)) with (f path ++ flat_map f paths).
  f_equal. unfold read_frame. rewrite <- list_fmap_compose. by apply list_fmap_ext.
Qed.

Lemma some_number_empty_frame (paths : list (string * list Csv.row)) :
  float_site_numbers (concat (read_frame <$> paths)) <-> some_number_empty paths.
Proof.
  unfold float_site_numbers, some_number_empty.
  rewrite file_rows_concat, Exists_exists. split.
  - intros (fr & Hin & Hnone). exists (file_row fr). split; [|done].
    apply list_elem_of_fmap. by exists fr.
  - intros (fr & Hin & Hnone). apply list_elem_of_fmap in Hin as (fr' & -> & Hin).
    by exists fr'.
Qed.

(** The two first steps keep the eligible rows. *)
Lemma located_rows (frame : list Frame.row) :
  Forall2 located_as
    (omap dropna_located
       (filter (fun fr => isin (Csv.Predominant_land_use (Frame.cols fr)) AG_LAND_USES)
          frame))
    (filter eligible (file_row <$> frame)).
Proof.
  induction frame as [|fr frame IH]; [constructor|].
  rewrite fmap_cons, (filter_cons eligible), (filter_cons (fun fr => isin _ _)).
  destruct (decide (isin (Csv.Predominant_land_use (Frame.cols fr)) AG_LAND_USES))
    as [Hag|Hag].
  - simpl omap. unfold dropna_located at 1.
    destruct (Csv.Latitude (Frame.cols fr)) as [lat|] eqn:Hlat;
      [destruct (Csv.Longitude (Frame.cols fr)) as [lon|] eqn:Hlon;
       [destruct (Csv.Sample_midpoint (Frame.cols fr)) as [mid|] eqn:Hmid|]|].
    + rewrite decide_True.
      * constructor; [|exact IH]. unfold located_as; simpl. by rewrite Hlat, Hlon, Hmid.
      * unfold eligible, agricultural; simpl. rewrite Hlat, Hlon, Hmid.
        apply isin_AG_LAND_USES in Hag. by eauto.
    + rewrite decide_False; [exact IH|].
      intros (_ & _ & _ & [? H]). simpl in H. by rewrite Hmid in H.
    + rewrite decide_False; [exact IH|].
      intros (_ & _ & [? H] & _). simpl in H. by rewrite Hlon in H.
    + rewrite decide_False; [exact IH|].
      intros (_ & [? H] & _). simpl in H. by rewrite Hlat in H.
  - rewrite decide_False; [exact IH|].
    intros (Hland & _). apply Hag. by apply isin_AG_LAND_USES.
Qed.

Lemma located_midpoints (sites : list (Located.row string))
    (rows : list (string * Csv.row)) :
  Forall2 located_as sites rows ->
  Located.Sample_midpoint <$> sites = midpoint_column rows.
Proof.
  intros H. induction H as [|l fr sites' rows' Hl _ IH]; [done|].
  destruct Hl as (_ & _ & _ & Hmid).
  rewrite fmap_cons, IH. unfold midpoint_column. simpl. by rewrite Hmid.
Qed.

(** The elements that [omap] keeps of an indexed list, by their
    positions. *)
Lemma omap_imap_picked {A C B : Type} (g : C -> option B) (l : list A) :
  forall h : nat -> A -> C,
  exists picked : list nat,
    StronglySorted lt picked /\
    (forall i, i ∈ picked <-> exists a, l !! i = Some a /\ is_Some (g (h i a))) /\
    Forall2 (fun i b => exists a, l !! i = Some a /\ g (h i a) = Some b)
      picked (omap g (imap h l)).
Proof.
  induction l as [|a l IH]; intros h.
  - exists []. split; [constructor|]. split; [|constructor].
    intros i. split; [by intros ?%elem_of_nil|]. by intros (a & Ha & _).
  - destruct (IH (h ∘ S)) as (picked & Hsort & Hin & Hall).
    assert (Forall (lt 0) (S <$> picked)) as Hpos.
    { apply Forall_fmap, Forall_forall. intros j _. simpl. lia. }
    assert (StronglySorted lt (S <$> picked)) as Hsort'.
    { clear Hin Hall Hpos. induction Hsort as [|j picked _ IHs Hj]; simpl;
        constructor; [exact IHs|].
      apply Forall_fmap. eapply Forall_impl; [exact Hj|]. intros k Hk. simpl. lia. }
    assert (Forall2 (fun i b => exists a0, (a :: l) !! i = Some a0 /\ g (h i a0) = Some b)
              (S <$> picked) (omap g (imap (h ∘ S) l))) as Hall'.
    { apply Forall2_fmap_l. eapply Forall2_impl; [exact Hall|]. by intros j b Hj. }
    change (imap h (a :: l)) with (h 0%nat a :: imap (h ∘ S) l).
    simpl omap. destruct (g (h 0%nat a)) as [b|] eqn:Hg.
    + exists (0%nat :: (S <$> picked)). split; [by constructor|]. split.
      * intros i. rewrite elem_of_cons, list_elem_of_fmap. split.
        -- intros [->|(j & -> & Hj)].
           ++ exists a. split; [done|]. by rewrite Hg.
           ++ apply Hin in Hj as (a0 & Ha0 & Hs). by exists a0.
        -- intros (a0 & Ha0 & Hs). destruct i as [|j]; [by left|right].
           exists j. split; [done|]. apply Hin. by exists a0.
      * constructor; [|exact Hall']. by exists a.
    + exists (S <$> picked). split; [exact Hsort'|]. split; [|exact Hall'].
      intros i. rewrite list_elem_of_fmap. split.
      * intros (j & -> & Hj). apply Hin in Hj as (a0 & Ha0 & Hs). by exists a0.
      * intros (a0 & Ha0 & Hs). destruct i as [|j].
        -- simpl in Ha0. injection Ha0 as <-. rewrite Hg in Hs. by destruct Hs.
        -- exists j. split; [done|]. apply Hin. by exists a0.
Qed.

Lemma dropna_set_midpoint (parsed : list (option Z)) (i : nat)
    (l : Located.row string) (z : Located.row Z) :
  dropna_midpoint (set_midpoint parsed i l) = Some z <->
  exists t, parsed !! i = Some (Some t) /\
    z = {| Located.origin := Located.origin l;
           Located.Latitude := Located.Latitude l;
           Located.Longitude := Located.Longitude l;
           Located.Sample_midpoint := t |}.
Proof.
  unfold dropna_midpoint, set_midpoint; simpl.
  destruct (parsed !! i) as [[t|]|]; simpl; split.
  - intros [= <-]. by exists t.
  - intros (t' & [= <-] & ->). done.
  - done.
  - by intros (t' & [=] & _).
  - done.
  - by intros (t' & [=] & _).
Qed.

(** The loaded row of an eligible row that parsed. *)
Lemma with_site_uid_loaded (paths : list (string * list Csv.row))
    (l : Located.row string) (fr : string * Csv.row) (t : Z) :
  located_as l fr ->
  loaded_from paths fr t
    (with_site_uid (concat (read_frame <$> paths))
       {| Located.origin := Located.origin l;
          Located.Latitude := Located.Latitude l;
          Located.Longitude := Located.Longitude l;
          Located.Sample_midpoint := t |}).
Proof.
  intros (<- & Hlat & Hlon & _). unfold loaded_from, with_site_uid; simpl in *.
  do 8 (split; [done|]).
  unfold number_loaded, site_number_cell; simpl.
  destruct (Csv.Site_number (Frame.cols (Located.origin l))) as [n|]; [|done].
  destruct (decide (float_site_numbers (concat (read_frame <$> paths)))) as [Hf|Hf];
    rewrite some_number_empty_frame in Hf; split; intros He; done.
Qed.

Lemma load_predicts_sites_loads (to_datetime : list string -> list (option Z))
    (paths : list (string * list Csv.row)) (sites : list site) :
  load_predicts_sites to_datetime paths = Ok sites -> loads to_datetime paths sites.
Proof.
  unfold load_predicts_sites, loads; cbv zeta.
  destruct (read_frame <$> paths) as [|fr0 frames] eqn:Hframes; [done|].
  rewrite <- Hframes. clear fr0 frames Hframes. intros [= <-].
  rewrite file_rows_concat.
  set (frame := concat (read_frame <$> paths)).
  pose proof (located_rows frame) as Hloc.
  set (located := omap dropna_located _) in *.
  set (rows := filter eligible _) in *.
  unfold parse_midpoints. rewrite (located_midpoints _ _ Hloc).
  set (parsed := to_datetime _).
  destruct (omap_imap_picked dropna_midpoint located (set_midpoint parsed))
    as (picked & Hsort & Hin & Hall).
  exists picked. split; [exact Hsort|]. split.
  - intros i. rewrite Hin. split.
    + intros (l & Hl & [z Hz]). apply dropna_set_midpoint in Hz as (t & Ht & _).
      destruct (Forall2_lookup_l _ _ _ _ _ Hloc Hl) as (fr & Hfr & _).
      by exists fr, t.
    + intros (fr & t & Hfr & Ht).
      destruct (Forall2_lookup_r _ _ _ _ _ Hloc Hfr) as (l & Hl & _).
      exists l. split; [done|]. eexists. apply dropna_set_midpoint. by exists t.
  - apply Forall2_fmap_r. eapply Forall2_impl; [exact Hall|].
    intros i z (l & Hl & Hz). apply dropna_set_midpoint in Hz as (t & Ht & ->).
    destruct (Forall2_lookup_l _ _ _ _ _ Hloc Hl) as (fr & Hfr & Hlfr).
    exists fr, t. split; [done|]. split; [done|].
    by apply with_site_uid_loaded.
Qed.

Lemma load_predicts_sites_returns (to_datetime : list string -> list (option Z))
    (path : string * list Csv.row) (paths : list (string * list Csv.row)) :
  exists sites, load_predicts_sites to_datetime (path :: paths) = Ok sites.
Proof. unfold load_predicts_sites. simpl. by eexists. Qed.

Lemma demo_load :
  load_predicts_sites demo_to_datetime [demo_2016; demo_2022] = Ok [demo_site].
Proof.
  unfold load_predicts_sites, demo_2016, demo_2022, read_frame; simpl.
  rewrite filter_cons, decide_True by (by apply isin_AG_LAND_USES; left).
  reflexivity.
Qed.

(** C9, as corrected: [load_predicts_sites] raises [ValueError] when it is
    given no file; otherwise it returns, in their order, exactly the rows
    of the files that are agricultural, have both coordinates and a
    midpoint, and whose midpoint [pd.to_datetime] turned into a timestamp
    when it was given the midpoints of all these rows at once. Each
    returned row has the cells of its input row, the parsed midpoint, the
    name of its file, and [site_uid] is [Source_ID], then ["::"], then
    [Site_number] as Python prints it: in decimal when no [Site_number] of
    the files is empty, as a float (["7.0"], ["nan"]) otherwise. *)
Theorem load_predicts_sites_spec (to_datetime : list string -> list (option Z))
    (paths : list (string * list Csv.row)) :
  match load_predicts_sites to_datetime paths with
  | Raise e => paths = [] /\ e = ValueError
  | Ok sites => paths <> [] /\ loads to_datetime paths sites
  end.
Proof.
  destruct paths as [|path paths]; [done|].
  destruct (load_predicts_sites_returns to_datetime path paths) as [sites Hsites].
  rewrite Hsites. split; [done|]. by apply load_predicts_sites_loads.
Qed.

Lemma mixed_file_load :
  load_predicts_sites to_datetime_first_format [mixed_file]
  = Ok [ {| Site_number := Float64 7; Source_ID := "AD1_2001__Liow";
            Latitude := 0; Longitude := 0;
            Predominant_land_use := Some "Pasture"%string;
            Sample_midpoint := 1451692800000000000;
            Country := None; Use_intensity := None;
            source_file := "site-level-summary.csv";
            site_uid := "AD1_2001__Liow::7.0" |} ].
Proof.
  unfold load_predicts_sites, mixed_file, read_frame; simpl.
  rewrite filter_cons, decide_True by (apply isin_AG_LAND_USES; simpl; auto).
  rewrite filter_cons, decide_True by (apply isin_AG_LAND_USES; simpl; auto).
  reflexivity.
Qed.

(** C9 as it is stated fails on a column of dates in two formats: the
    second row of [mixed_file] is agricultural, has both coordinates and a
    midpoint that parses as a date, and is not returned. *)
Lemma mixed_formats_row_dropped :
  exists sites,
    load_predicts_sites to_datetime_first_format [mixed_file] = Ok sites /\
    ~ returns_every_parsing_row to_datetime_first_format [mixed_file] sites.
Proof.
  eexists. split; [exact mixed_file_load|].
  intros H. destruct (H ("site-level-summary.csv"%string, row_slashes))
    as (s & Hs & _ & Hsrc).
  - unfold file_rows, mixed_file; simpl. right. left.
  - unfold agricultural; simpl. auto.
  - by eexists.
  - by eexists.
  - by exists "02/01/2016"%string, 1454284800000000000%Z.
  - apply list_elem_of_singleton in Hs as ->. simpl in Hsrc. discriminate.
Qed.

(** * Further properties *)

(** ** More on the distance *)

(** X1: no distance exceeds half the circumference of the sphere,
    [6371 * PI] km. *)
Theorem haversine_distance_upper_bound (lat1 lon1 lat2 lon2 : R) :
  Haversine.haversine_distance lat1 lon1 lat2 lon2 <= 6371 * PI.
Proof.
  unfold Haversine.haversine_distance, Haversine.R_earth; cbv zeta.
  pose proof (asin_bound (sqrt (Haversine.hav_a lat1 lon1 lat2 lon2))) as [_ Hle].
  lra.
Qed.

Lemma sin_sqr_shift_PI (x : R) : (sin (x - PI)) ^ 2 = (sin x) ^ 2.
Proof.
  replace x with ((x - PI) + PI) at 2 by lra. rewrite neg_sin. ring.
Qed.

(** X2: the distance does not change when a longitude is shifted by a
    full turn of 360 degrees, on either point. *)
Theorem haversine_distance_longitude_turn (lat1 lon1 lat2 lon2 : R) :
  Haversine.haversine_distance lat1 (lon1 + 360) lat2 lon2
  = Haversine.haversine_distance lat1 lon1 lat2 lon2 /\
  Haversine.haversine_distance lat1 lon1 lat2 (lon2 + 360)
  = Haversine.haversine_distance lat1 lon1 lat2 lon2.
Proof.
  assert (forall p1 l1 p2 l2, Haversine.hav_a p1 (l1 + 360) p2 l2
                              = Haversine.hav_a p1 l1 p2 l2) as Hturn.
  { intros p1 l1 p2 l2. unfold Haversine.hav_a; cbv zeta.
    replace (Haversine.radians (l2 - (l1 + 360)) / 2)
      with (Haversine.radians (l2 - l1) / 2 - PI)
      by (unfold Haversine.radians; lra).
    by rewrite sin_sqr_shift_PI. }
  split.
  - unfold Haversine.haversine_distance; cbv zeta. by rewrite Hturn.
  - unfold Haversine.haversine_distance; cbv zeta.
    rewrite (hav_a_sym lat1 lon1 lat2 (lon2 + 360)), Hturn.
    by rewrite (hav_a_sym lat2 lon2 lat1 lon1).
Qed.

Lemma asin_abs_sin (x : R) : - (PI / 2) <= x <= PI / 2 -> asin (Rabs (sin x)) = Rabs x.
Proof.
  intros Hx. pose proof PI_RGT_0 as Hpi.
  destruct (Rle_lt_dec 0 x) as [Hpos|Hneg].
  - rewrite (Rabs_right x) by lra.
    rewrite Rabs_right by (apply Rle_ge, sin_ge_0; lra).
    apply asin_sin. lra.
  - rewrite (Rabs_left x) by lra.
    assert (0 <= sin (- x)) as Hs by (apply sin_ge_0; lra).
    rewrite sin_neg in Hs.
    rewrite Rabs_left1 by lra. rewrite <- sin_neg.
    apply asin_sin. lra.
Qed.

(** X3: between two points of the same longitude whose latitudes differ
    by at most 180 degrees, the distance is the length of the arc of
    meridian, [6371 * PI / 180] km for each degree of latitude. *)
Theorem haversine_distance_along_meridian (lat1 lat2 lon : R) :
  Rabs (lat2 - lat1) <= 180 ->
  Haversine.haversine_distance lat1 lon lat2 lon
  = 6371 * PI / 180 * Rabs (lat2 - lat1).
Proof.
  intros Hlat. pose proof PI_RGT_0 as Hpi.
  set (x := Haversine.radians (lat2 - lat1) / 2).
  assert (Haversine.hav_a lat1 lon lat2 lon = (sin x)²) as Ha.
  { unfold Haversine.hav_a; cbv zeta. fold x.
    replace (lon - lon) with 0 by lra.
    rewrite radians_0. replace (0 / 2) with 0 by lra.
    rewrite sin_0, Rsqr_pow2. ring. }
  assert (Rabs x = PI / 360 * Rabs (lat2 - lat1)) as Hx.
  { unfold x, Haversine.radians.
    replace ((lat2 - lat1) * PI / 180 / 2) with (PI / 360 * (lat2 - lat1)) by lra.
    rewrite Rabs_mult. rewrite (Rabs_right (PI / 360)) by lra. reflexivity. }
  assert (- (PI / 2) <= x <= PI / 2) as Hrange.
  { assert (Rabs x <= PI / 2) as Hb by (rewrite Hx; nra).
    unfold Rabs in Hb. destruct (Rcase_abs x); lra. }
  unfold Haversine.haversine_distance, Haversine.R_earth; cbv zeta.
  rewrite Ha, sqrt_Rsqr_abs, (asin_abs_sin x Hrange), Hx. lra.
Qed.

Lemma haversine_distance_along_meridian_witness :
  Rabs (1 - 0) <= 180 /\
  Haversine.haversine_distance 0 0 1 0 = 6371 * PI / 180 * Rabs (1 - 0).
Proof.
  assert (Rabs (1 - 0) <= 180) as H by (rewrite Rabs_right; lra).
  split; [exact H|]. exact (haversine_distance_along_meridian 0 1 0 H).
Defined.

(** ** More on the matching loop *)

Lemma has_acceptable_filter (meta : list patch) (rad cloud : R) (s : site) :
  has_acceptable meta rad cloud s <-> filter (acceptable s rad cloud) meta <> [].
Proof.
  split.
  - intros Hhas Hnil. by apply acceptable_filter_nil in Hnil.
  - intros Hne. destruct (filter (acceptable s rad cloud) meta) as [|p l] eqn:Hf;
      [done|].
    assert (p ∈ filter (acceptable s rad cloud) meta) as Hin by (rewrite Hf; left).
    apply list_elem_of_filter in Hin as [Hacc Hp]. by exists p.
Qed.

Section matching_more.
Variables (search_radius_deg : R) (max_cloud_cover : R).


Lemma match_site_saturated (meta : list patch) (n1 n2 : Z) (s : site) :
  (Z.of_nat (length meta) <= n1)%Z -> (Z.of_nat (length meta) <= n2)%Z ->
  match_site meta search_radius_deg n1 max_cloud_cover s
  = match_site meta search_radius_deg n2 max_cloud_cover s.
Proof.
  intros H1 H2. rewrite !match_site_unfold. unfold selection, nsmallest.
  pose proof (length_filter (acceptable s search_radius_deg max_cloud_cover) meta).
  rewrite !take_ge; [done| |];
    rewrite sort_by_length, length_fmap; lia.
Qed.

Lemma match_site_raise (meta : list patch) (n : Z) (s : site) (e : exn) :
  match_site meta search_radius_deg n max_cloud_cover s = Raise e ->
  has_acceptable meta search_radius_deg max_cloud_cover s /\
  (((n <= 0)%Z /\ e = IndexError) \/
   ((0 < n)%Z /\ e = ValueError /\
    exists p, p ∈ meta /\ acceptable s search_radius_deg max_cloud_cover p /\
              timestamp_dt p = None)).
Proof.
  rewrite match_site_unfold. case_decide as Hnil; [done|].
  assert (has_acceptable meta search_radius_deg max_cloud_cover s) as Hhas
    by (by apply has_acceptable_filter).
  pose proof (selection_length meta search_radius_deg n max_cloud_cover s) as Hlen.
  assert (0 < length (filter (acceptable s search_radius_deg max_cloud_cover) meta))%nat
    as Hpos by (destruct (filter _ meta); [done|simpl; lia]).
  destruct (selection meta search_radius_deg n max_cloud_cover s)
    as [|best rest] eqn:Hsel; simpl in Hlen.
  - intros [= <-]. split; [done|]. left. split; [lia|done].
  - assert (best ∈ selection meta search_radius_deg n max_cloud_cover s) as Hin
      by (rewrite Hsel; left).
    apply selection_elem in Hin as (p & Hp & Hacc & ->).
    destruct (lag_days (ranked_of s p)) as [lag|] eqn:Hlag; [done|].
    intros [= <-]. split; [done|]. right. split; [lia|]. split; [done|].
    exists p. split; [done|]. split; [done|].
    unfold ranked_of, with_lag, with_distance in Hlag; simpl in Hlag.
    by destruct (timestamp_dt p).
Qed.

Lemma match_site_no_room (meta : list patch) (n : Z) (s : site) :
  (n <= 0)%Z -> has_acceptable meta search_radius_deg max_cloud_cover s ->
  match_site meta search_radius_deg n max_cloud_cover s = Raise IndexError.
Proof.
  intros Hn Hhas. rewrite match_site_unfold.
  rewrite decide_False by (intros Hnil; by apply acceptable_filter_nil in Hnil).
  pose proof (selection_length meta search_radius_deg n max_cloud_cover s) as Hlen.
  destruct (selection meta search_radius_deg n max_cloud_cover s); [done|].
  simpl in Hlen. lia.
Qed.

End matching_more.

Lemma iterrows_loop_ext (meta meta' : list patch) (rad rad' : R) (n n' : Z)
    (cloud cloud' : R) (rows : list site) (acc : list (gmap string value)) :
  (forall s, s ∈ rows ->
     match_site meta rad n cloud s = match_site meta' rad' n' cloud' s) ->
  iterrows_loop meta rad n cloud rows acc = iterrows_loop meta' rad' n' cloud' rows acc.
Proof.
  revert acc. induction rows as [|s rows IH]; intros acc Hext; [done|].
  simpl. rewrite (Hext s) by left.
  destruct (match_site meta' rad' n' cloud' s); simpl; [|done].
  apply IH. intros s' Hs'. apply Hext. by right.
Qed.

Lemma iterrows_loop_app (meta : list patch) (rad : R) (n : Z) (cloud : R)
    (rows1 rows2 : list site) (acc : list (gmap string value)) :
  iterrows_loop meta rad n cloud (rows1 ++ rows2) acc
  = iterrows_loop meta rad n cloud rows1 acc
      ≫= iterrows_loop meta rad n cloud rows2.
Proof.
  revert acc. induction rows1 as [|s rows1 IH]; intros acc; [done|].
  simpl. destruct (match_site meta rad n cloud s); simpl; [apply IH|done].
Qed.

Lemma iterrows_loop_acc (meta : list patch) (rad : R) (n : Z) (cloud : R)
    (rows : list site) (acc : list (gmap string value)) :
  iterrows_loop meta rad n cloud rows acc
  = iterrows_loop meta rad n cloud rows [] ≫= fun out => Ok (acc ++ out).
Proof.
  revert acc. induction rows as [|s rows IH]; intros acc; simpl.
  - by rewrite app_nil_r.
  - destruct (match_site meta rad n cloud s) as [r|e]; simpl; [|done].
    rewrite (IH (acc ++ [r])), (IH [r]).
    destruct (iterrows_loop meta rad n cloud rows []); simpl; [|done].
    by rewrite <- app_assoc.
Qed.

Lemma iterrows_loop_raise_inv (meta : list patch) (rad : R) (n : Z) (cloud : R)
    (rows : list site) (acc : list (gmap string value)) (e : exn) :
  iterrows_loop meta rad n cloud rows acc = Raise e ->
  exists s, s ∈ rows /\ match_site meta rad n cloud s = Raise e.
Proof.
  revert acc. induction rows as [|s rows IH]; intros acc; simpl; [done|].
  destruct (match_site meta rad n cloud s) as [r|e'] eqn:Hs; simpl.
  - intros (s' & Hs' & Hr)%IH. exists s'. split; [by right|done].
  - intros [= ->]. exists s. split; [left|done].
Qed.




Lemma raise_site_cause (sites : list site) (meta : list patch)
    (rad : R) (n : Z) (cloud : R) (e : exn) :
  match_nearest_patches sites meta rad n cloud = Raise e ->
  exists s, s ∈ sites /\
    has_acceptable meta rad cloud s /\
    (((n <= 0)%Z /\ e = IndexError) \/
     ((0 < n)%Z /\ e = ValueError /\
      exists p, p ∈ meta /\ acceptable s rad cloud p /\ timestamp_dt p = None)).
Proof.
  unfold match_nearest_patches. intros (s & Hs & Hr)%iterrows_loop_raise_inv.
  exists s. split; [done|]. by eapply match_site_raise.
Qed.



(** X6: with [max_candidates <= 0] the call raises [IndexError] as soon as
    one site has an acceptable patch. *)
Theorem no_room_raises_IndexError (sites : list site) (meta : list patch)
    (search_radius_deg : R) (max_candidates : Z) (max_cloud_cover : R) (s : site) :
  (max_candidates <= 0)%Z -> s ∈ sites ->
  has_acceptable meta search_radius_deg max_cloud_cover s ->
  match_nearest_patches sites meta search_radius_deg max_candidates max_cloud_cover
  = Raise IndexError.
Proof.
  intros Hn Hs Hhas.
  destruct (match_nearest_patches sites meta search_radius_deg max_candidates
              max_cloud_cover) as [out|e] eqn:Hrun.
  - apply match_nearest_patches_inv in Hrun.
    apply list_elem_of_lookup in Hs as [i Hi].
    destruct (Forall2_lookup_l _ _ _ _ _ Hrun Hi) as (r & _ & Hr).
    by rewrite match_site_no_room in Hr.
  - apply raise_site_cause in Hrun as (s' & _ & _ & [[_ ->]|[Hpos _]]); [done|lia].
Qed.

Lemma no_room_raises_IndexError_witness :
  (0 <= 0)%Z /\ demo_site ∈ [demo_site] /\
  has_acceptable [patch_late; patch_same_day] 1 50 demo_site /\
  match_nearest_patches [demo_site] [patch_late; patch_same_day] 1 0 50
  = Raise IndexError.
Proof.
  assert (has_acceptable [patch_late; patch_same_day] 1 50 demo_site) as Hhas.
  { exists patch_late. split; [left|exact demo_acceptable_late]. }
  assert (demo_site ∈ [demo_site]) as Hin by left.
  split; [lia|]. split; [exact Hin|]. split; [exact Hhas|].
  exact (no_room_raises_IndexError _ _ 1 0 50 _ ltac:(lia) Hin Hhas).
Defined.




(** X8: once [max_candidates] is at least the number of rows of the
    metadata, its value no longer matters. *)
Theorem max_candidates_saturates (sites : list site) (meta : list patch)
    (search_radius_deg : R) (n1 n2 : Z) (max_cloud_cover : R) :
  (Z.of_nat (length meta) <= n1)%Z -> (Z.of_nat (length meta) <= n2)%Z ->
  match_nearest_patches sites meta search_radius_deg n1 max_cloud_cover
  = match_nearest_patches sites meta search_radius_deg n2 max_cloud_cover.
Proof.
  intros H1 H2. unfold match_nearest_patches.
  apply iterrows_loop_ext. intros s _. by apply match_site_saturated.
Qed.

Lemma max_candidates_saturates_witness :
  (Z.of_nat (length [patch_late; patch_same_day]) <= 2)%Z /\
  (Z.of_nat (length [patch_late; patch_same_day]) <= 1000)%Z /\
  match_nearest_patches [demo_site] [patch_late; patch_same_day] 1 2 50
  = match_nearest_patches [demo_site] [patch_late; patch_same_day] 1 1000 50.
Proof.
  split; [simpl; lia|]. split; [simpl; lia|].
  apply (max_candidates_saturates [demo_site] [patch_late; patch_same_day] 1 2 1000 50);
    simpl; lia.
Defined.

(** X9: the sites can be matched in batches: the call on a table that is
    two tables one after the other returns the two results one after the
    other, and raises what the first batch raises, else what the second
    raises. *)
Theorem match_nearest_patches_app (sites1 sites2 : list site) (meta : list patch)
    (search_radius_deg : R) (max_candidates : Z) (max_cloud_cover : R) :
  match_nearest_patches (sites1 ++ sites2) meta search_radius_deg max_candidates
    max_cloud_cover
  = match match_nearest_patches sites1 meta search_radius_deg max_candidates
            max_cloud_cover with
    | Raise e => Raise e
    | Ok out1 =>
        match match_nearest_patches sites2 meta search_radius_deg max_candidates
                max_cloud_cover with
        | Raise e => Raise e
        | Ok out2 => Ok (out1 ++ out2)
        end
    end.
Proof.
  unfold match_nearest_patches. rewrite iterrows_loop_app.
  destruct (iterrows_loop meta search_radius_deg max_candidates max_cloud_cover
              sites1 []) as [out1|e]; simpl; [|done].
  rewrite iterrows_loop_acc.
  by destruct (iterrows_loop meta search_radius_deg max_candidates max_cloud_cover
                 sites2 []).
Qed.

Lemma Forall2_same_left {A B C : Type} (P : A -> B -> Prop) (Q : A -> C -> Prop)
    (l : list A) (k1 : list B) (k2 : list C) :
  Forall2 P l k1 -> Forall2 Q l k2 ->
  Forall2 (fun b c => exists a, P a b /\ Q a c) k1 k2.
Proof.
  intros H1. revert k2. induction H1 as [|a b l k1 Hab _ IH]; intros k2 H2.
  - apply Forall2_nil_inv_l in H2 as ->. constructor.
  - apply Forall2_cons_inv_l in H2 as (c & k2' & Hac & H2 & ->).
    constructor; [by exists a|by apply IH].
Qed.

Lemma acceptable_relaxed (s : site) (rad1 rad2 cloud1 cloud2 : R) (p : patch) :
  rad1 <= rad2 -> cloud1 <= cloud2 ->
  acceptable s rad1 cloud1 p -> acceptable s rad2 cloud2 p.
Proof. unfold acceptable, in_box. intros ? ? [(? & ? & ? & ?) ?]. repeat split; lra. Qed.

(** When [nsmallest] drops nothing, the first row of the sorted
    candidates is a nearest acceptable patch. *)
Lemma selection_head_nearest (meta : list patch) (rad : R) (n : Z) (cloud : R)
    (s : site) (p q : patch) (rest : list ranked) :
  (Z.of_nat (length meta) <= n)%Z ->
  selection meta rad n cloud s = ranked_of s p :: rest ->
  q ∈ meta -> acceptable s rad cloud q ->
  site_distance s p <= site_distance s q.
Proof.
  intros Hn Hsel Hq Hacc.
  assert (sort_key_le (ranked_of s p) (ranked_of s q)) as Hle.
  { eapply selection_head_least; [exact Hsel|].
    apply nsmallest_keeps; [done|done|]. unfold as_near_count.
    pose proof (length_filter (fun x => site_distance s x <= site_distance s q)
                  (filter (acceptable s rad cloud) meta)).
    pose proof (length_filter (acceptable s rad cloud) meta). lia. }
  unfold sort_key_le, ranked_of, with_lag, with_distance in Hle; simpl in Hle.
  unfold site_distance. lra.
Qed.

(** X10: with [max_candidates] at least the number of rows of the
    metadata, widening the box or raising the cloud threshold never loses
    a match and never lengthens the matched distance. *)
Theorem relaxed_filters_match_nearer (sites : list site) (meta : list patch)
    (rad1 rad2 : R) (max_candidates : Z) (cloud1 cloud2 : R)
    (out1 out2 : list (gmap string value)) :
  rad1 <= rad2 -> cloud1 <= cloud2 ->
  (Z.of_nat (length meta) <= max_candidates)%Z ->
  match_nearest_patches sites meta rad1 max_candidates cloud1 = Ok out1 ->
  match_nearest_patches sites meta rad2 max_candidates cloud2 = Ok out2 ->
  Forall2 (fun r1 r2 =>
             is_match r1 ->
             is_match r2 /\
             exists d1 d2,
               r1 !! "distance_km"%string = Some (VFloat d1) /\
               r2 !! "distance_km"%string = Some (VFloat d2) /\
               d2 <= d1)
    out1 out2.
Proof.
  intros Hrad Hcloud Hn H1%returned_records H2%returned_records.
  eapply Forall2_impl; [exact (Forall2_same_left _ _ _ _ _ H1 H2)|].
  intros r1 r2 (s & Hr1 & Hr2) Hm; simpl in *.
  destruct (record_of_site_match _ _ _ _ _ _ Hr1 Hm)
    as (p1 & t1 & rest1 & _ & Hp1 & Hacc1 & _ & ->).
  pose proof (acceptable_relaxed s _ _ _ _ p1 Hrad Hcloud Hacc1) as Hacc2.
  destruct Hr2 as [[Hnil _]|(p2 & t2 & rest2 & Hsel2 & Hp2 & _ & Ht2 & ->)].
  { exfalso. eapply filter_nil_not_elem_of; [exact Hnil|exact Hacc2|exact Hp1]. }
  split; [by eexists|].
  exists (site_distance s p1), (site_distance s p2).
  split; [reflexivity|]. split; [reflexivity|].
  by eapply selection_head_nearest.
Qed.

Lemma demo_relaxed_run :
  match_nearest_patches [demo_site]
    [patch_late; patch_same_day; patch_cloudy; patch_far] 1 1000 90
  = Ok [matched_record demo_site (ranked_of demo_site patch_same_day) 0].
Proof.
  apply match_nearest_patches_Ok. repeat constructor. run_match_site.
Qed.

Lemma relaxed_filters_match_nearer_witness :
  1 <= 1 /\ 50 <= 90 /\
  (Z.of_nat (length [patch_late; patch_same_day; patch_cloudy; patch_far]) <= 1000)%Z /\
  match_nearest_patches [demo_site]
    [patch_late; patch_same_day; patch_cloudy; patch_far] 1 1000 50
  = Ok [matched_record demo_site (ranked_of demo_site patch_same_day) 0] /\
  match_nearest_patches [demo_site]
    [patch_late; patch_same_day; patch_cloudy; patch_far] 1 1000 90
  = Ok [matched_record demo_site (ranked_of demo_site patch_same_day) 0] /\
  Forall2 (fun r1 r2 =>
             is_match r1 ->
             is_match r2 /\
             exists d1 d2,
               r1 !! "distance_km"%string = Some (VFloat d1) /\
               r2 !! "distance_km"%string = Some (VFloat d2) /\
               d2 <= d1)
    [matched_record demo_site (ranked_of demo_site patch_same_day) 0]
    [matched_record demo_site (ranked_of demo_site patch_same_day) 0].
Proof.
  assert (Z.of_nat (length [patch_late; patch_same_day; patch_cloudy; patch_far])
          <= 1000)%Z as Hn by (simpl; lia).
  split; [lra|]. split; [lra|]. split; [exact Hn|].
  split; [exact demo_default_run|]. split; [exact demo_relaxed_run|].
  exact (relaxed_filters_match_nearer _ _ 1 1 1000 50 90 _ _
           ltac:(lra) ltac:(lra) Hn demo_default_run demo_relaxed_run).
Defined.

(** ** The summary of [main] *)








Lemma demo_main :
  main demo_to_datetime demo_2016 demo_2022
    [patch_late; patch_same_day; patch_cloudy; patch_far]
  = Ok (summarize [matched_record demo_site (ranked_of demo_site patch_same_day) 0]).
Proof. unfold main. by rewrite demo_load; simpl; rewrite demo_default_run. Qed.

(** Two files without a row: no site, and [main] fails. *)
Lemma main_without_site (meta : list patch) :
  main demo_to_datetime demo_2022 demo_2022 meta = Raise KeyError.
Proof. reflexivity. Qed.

(** ** From the CSV rows to the saved records *)

(** X12: when [main] gets a table of matches, the table has one record
    for each eligible row of the two files whose midpoint parsed, in
    order, and the record carries the row's file name, its [Source_ID],
    its coordinates, the parsed midpoint, and the [Site_number] and
    [site_uid] as the loader set them: the integer and its decimal when no
    [Site_number] of the files is empty, the float and what Python prints
    for it otherwise. *)
Theorem main_records_follow_csv_rows (to_datetime : list string -> list (option Z))
    (predicts_2016 predicts_2022 : string * list Csv.row) (meta : list patch)
    (sites : list site) (out : list (gmap string value)) :
  load_predicts_sites to_datetime [predicts_2016; predicts_2022] = Ok sites ->
  main_matches sites meta = Ok out ->
  let paths := [predicts_2016; predicts_2022] in
  let rows := filter eligible (file_rows paths) in
  let parsed := to_datetime (midpoint_column rows) in
  exists picked : list nat,
    StronglySorted lt picked /\
    (forall i, i ∈ picked <->
               exists fr t, rows !! i = Some fr /\ parsed !! i = Some (Some t)) /\
    Forall2 (fun i r => exists fr t,
                 rows !! i = Some fr /\ parsed !! i = Some (Some t) /\
                 saved_from paths fr t r)
      picked out.
Proof.
  intros Hload Hrun paths rows parsed. unfold main_matches in Hrun.
  apply returned_table_keeps_sites in Hrun as [_ Hframe].
  apply load_predicts_sites_loads in Hload as (picked & Hsort & Hin & Hall).
  exists picked. split; [exact Hsort|]. split; [exact Hin|].
  eapply Forall2_trans; [|exact Hall|exact Hframe].
  intros i s r (fr & t & Hfr & Ht & Hfrom) [Hkeep _].
  exists fr, t. split; [exact Hfr|]. split; [exact Ht|].
  destruct Hfrom as (Hsrc & Hlat & Hlon & _ & Hmid & _ & _ & Hfile & Hnum).
  assert (r !! "Site_number"%string = Some (number_value (Site_number s))) as Hn
    by (by apply Hkeep).
  assert (r !! "site_uid"%string = Some (VStr (site_uid s))) as Hu
    by (by apply Hkeep).
  unfold saved_from. rewrite <- Hfile, <- Hsrc, <- Hlat, <- Hlon, <- Hmid.
  split; [by apply Hkeep|]. split; [by apply Hkeep|].
  split; [symmetry; by apply Hkeep|]. split; [symmetry; by apply Hkeep|].
  split; [by apply Hkeep|].
  unfold number_loaded in Hnum. rewrite Hn, Hu.
  destruct (Csv.Site_number fr.2) as [n|].
  - destruct Hnum as [Hint Hfloat]. split.
    + intros He. destruct (Hint He) as [-> ->]. done.
    + intros He. destruct (Hfloat He) as [-> Huid]. split; [done|].
      intros Hsmall. by rewrite (Huid Hsmall).
  - destruct Hnum as [-> ->]. done.
Qed.

Lemma main_records_follow_csv_rows_witness :
  load_predicts_sites demo_to_datetime [demo_2016; demo_2022] = Ok [demo_site] /\
  main_matches [demo_site] [patch_late; patch_same_day; patch_cloudy; patch_far]
  = Ok [matched_record demo_site (ranked_of demo_site patch_same_day) 0] /\
  exists picked : list nat,
    StronglySorted lt picked /\
    (forall i, i ∈ picked <->
       exists fr t,
         filter eligible (file_rows [demo_2016; demo_2022]) !! i = Some fr /\
         demo_to_datetime
           (midpoint_column (filter eligible (file_rows [demo_2016; demo_2022]))) !! i
         = Some (Some t)) /\
    Forall2 (fun i r => exists fr t,
                 filter eligible (file_rows [demo_2016; demo_2022]) !! i = Some fr /\
                 demo_to_datetime
                   (midpoint_column (filter eligible (file_rows [demo_2016; demo_2022])))
                   !! i
                 = Some (Some t) /\
                 saved_from [demo_2016; demo_2022] fr t r)
      picked [matched_record demo_site (ranked_of demo_site patch_same_day) 0].
Proof.
  split; [exact demo_load|]. split; [exact demo_default_run|].
  exact (main_records_follow_csv_rows demo_to_datetime demo_2016 demo_2022 _ _ _
           demo_load demo_default_run).
Defined.

(** ** More on the loading *)

Lemma char_free_app (c : ascii) (s t : string) :
  char_free c (s ++ t) <-> char_free c s /\ char_free c t.
Proof.
  induction s as [|c' s IH]; simpl.
  - change ("" ++ t)%string with t. tauto.
  - change (String c' s ++ t)%string with (String c' (s ++ t)). simpl.
    rewrite IH. tauto.
Qed.

Lemma char_in_app (c : ascii) (s t : string) : ~ char_free c (s ++ String c t).
Proof. rewrite char_free_app. simpl. tauto. Qed.

(** A string is cut in one way at the first [c]. *)
Lemma append_char_inj (c : ascii) (s1 s2 t1 t2 : string) :
  char_free c s1 -> char_free c s2 ->
  (s1 ++ String c t1)%string = (s2 ++ String c t2)%string ->
  s1 = s2 /\ t1 = t2.
Proof.
  revert s2. induction s1 as [|c1 s1 IH]; intros [|c2 s2] H1 H2 Heq.
  - by injection Heq.
  - injection Heq as -> _. simpl in H2. by destruct H2.
  - injection Heq as -> _. simpl in H1. by destruct H1.
  - injection Heq as -> Heq. simpl in H1, H2.
    destruct (IH s2) as [-> ->]; [tauto|tauto|exact Heq|done].
Qed.

Lemma string_of_uint_char_free (c : ascii) (d : Decimal.uint) :
  c = ":"%char \/ c = "."%char \/ c = "n"%char ->
  char_free c (NilEmpty.string_of_uint d).
Proof. intros [->|[->| ->]]; induction d; simpl; auto. Qed.

Lemma string_of_int_char_free (c : ascii) (z : Z) :
  c = ":"%char \/ c = "."%char \/ c = "n"%char ->
  char_free c (NilZero.string_of_int (Z.to_int z)).
Proof.
  intros Hc. unfold NilZero.string_of_int, NilZero.string_of_uint.
  destruct (Z.to_int z) as [d|d]; destruct d; simpl;
    repeat split;
    first [by destruct Hc as [->|[->| ->]]
          | by apply string_of_uint_char_free].
Qed.

Lemma string_of_int_inj (z1 z2 : Z) :
  NilZero.string_of_int (Z.to_int z1) = NilZero.string_of_int (Z.to_int z2) -> z1 = z2.
Proof.
  assert (forall z, NilZero.int_of_string (NilZero.string_of_int (Z.to_int z))
                    = Some (Z.to_int z)) as Hparse.
  { intros z. apply NilZero.isi.
    - destruct z as [|p|p]; simpl; try discriminate.
      intros [= H]. by apply DecimalPos.Unsigned.to_uint_nonnil in H.
    - destruct z as [|p|p]; simpl; try discriminate.
      intros [= H]. by apply DecimalPos.Unsigned.to_uint_nonnil in H. }
  intros H. apply DecimalZ.to_int_inj.
  pose proof (Hparse z1) as H1. rewrite H, Hparse in H1. by injection H1.
Qed.

(** What [astype(str)] prints has no colon, and tells the cells apart. *)
Lemma astype_str_colon_free (c : number) : char_free ":" (astype_str c).
Proof.
  destruct c as [n|n|]; simpl.
  - apply string_of_int_char_free. by left.
  - apply char_free_app. split; [apply string_of_int_char_free; by left|].
    simpl. by repeat split.
  - by repeat split.
Qed.

Lemma astype_str_inj (c1 c2 : number) : astype_str c1 = astype_str c2 -> c1 = c2.
Proof.
  assert (forall n, char_free "." (NilZero.string_of_int (Z.to_int n))) as Hdot
    by (intros n; apply string_of_int_char_free; right; by left).
  assert (forall n, char_free "n" (NilZero.string_of_int (Z.to_int n))) as Hn
    by (intros n; apply string_of_int_char_free; right; by right).
  assert (forall n, char_free "n" (NilZero.string_of_int (Z.to_int n) ++ ".0")) as Hn'.
  { intros n. apply char_free_app. split; [apply Hn|]. simpl. by repeat split. }
  destruct c1 as [n1|n1|], c2 as [n2|n2|]; simpl; intros Heq.
  - f_equal. by apply string_of_int_inj.
  - exfalso. pose proof (Hdot n1) as H. rewrite Heq in H. by apply char_in_app in H.
  - exfalso. pose proof (Hn n1) as H. rewrite Heq in H. simpl in H. by destruct H.
  - exfalso. pose proof (Hdot n2) as H. rewrite <- Heq in H. by apply char_in_app in H.
  - f_equal. apply string_of_int_inj.
    by destruct (append_char_inj "." _ _ _ _ (Hdot n1) (Hdot n2) Heq).
  - exfalso. pose proof (Hn' n1) as H. rewrite Heq in H. simpl in H. by destruct H.
  - exfalso. pose proof (Hn n2) as H. rewrite <- Heq in H. simpl in H. by destruct H.
  - exfalso. pose proof (Hn' n2) as H. rewrite <- Heq in H. simpl in H. by destruct H.
  - done.
Qed.

(** A string is cut in one way at its last ["::"]. *)
Lemma append_separator_inj (s1 s2 d1 d2 : string) :
  char_free ":" d1 -> char_free ":" d2 ->
  (s1 ++ "::" ++ d1)%string = (s2 ++ "::" ++ d2)%string ->
  s1 = s2 /\ d1 = d2.
Proof.
  intros Hd1 Hd2. revert s2.
  change ("::" ++ d1)%string with (String ":" (String ":" d1)).
  change ("::" ++ d2)%string with (String ":" (String ":" d2)).
  induction s1 as [|c1 s1 IH]; intros [|c2 s2] Heq.
  - by injection Heq.
  - exfalso. injection Heq as Hc Heq. destruct s2 as [|c3 s2].
    + injection Heq as ->. simpl in Hd1. by destruct Hd1 as [Hd1 _].
    + injection Heq as _ ->.
      by apply (char_in_app ":" s2 (String ":" d2)) in Hd1.
  - exfalso. injection Heq as Hc Heq. destruct s1 as [|c3 s1].
    + injection Heq as <-. simpl in Hd2. by destruct Hd2 as [Hd2 _].
    + injection Heq as _ <-.
      by apply (char_in_app ":" s1 (String ":" d1)) in Hd2.
  - injection Heq as -> Heq. destruct (IH _ Heq) as [-> ->]. done.
Qed.

Lemma loaded_site_uid (to_datetime : list string -> list (option Z))
    (paths : list (string * list Csv.row)) (sites : list site) (s : site) :
  load_predicts_sites to_datetime paths = Ok sites -> s ∈ sites ->
  site_uid s = (Source_ID s ++ "::" ++ astype_str (Site_number s))%string.
Proof.
  unfold load_predicts_sites.
  destruct (read_frame <$> paths) as [|fr0 frames]; [done|].
  intros [= <-] Hs. apply list_elem_of_fmap in Hs as (z & -> & _). done.
Qed.

(** X14: [site_uid] identifies a site: two loaded rows with the same
    [site_uid] have the same [Source_ID] and the same [Site_number]. *)
Theorem site_uid_identifies_site (to_datetime : list string -> list (option Z))
    (paths : list (string * list Csv.row)) (sites : list site) (s1 s2 : site) :
  load_predicts_sites to_datetime paths = Ok sites ->
  s1 ∈ sites -> s2 ∈ sites ->
  site_uid s1 = site_uid s2 ->
  Source_ID s1 = Source_ID s2 /\ Site_number s1 = Site_number s2.
Proof.
  intros Hload H1 H2 Heq.
  rewrite (loaded_site_uid _ _ _ _ Hload H1), (loaded_site_uid _ _ _ _ Hload H2) in Heq.
  apply append_separator_inj in Heq as [Hsrc Hnum];
    [|apply astype_str_colon_free|apply astype_str_colon_free].
  split; [exact Hsrc|by apply astype_str_inj].
Qed.

Lemma site_uid_identifies_site_witness :
  load_predicts_sites demo_to_datetime [demo_2016; demo_2022] = Ok [demo_site] /\
  demo_site ∈ [demo_site] /\
  site_uid demo_site = site_uid demo_site /\
  Source_ID demo_site = Source_ID demo_site /\
  Site_number demo_site = Site_number demo_site.
Proof.
  assert (demo_site ∈ [demo_site]) as Hin by left.
  split; [exact demo_load|]. split; [exact Hin|]. split; [reflexivity|].
  exact (site_uid_identifies_site _ _ _ _ _ demo_load Hin Hin eq_refl).
Defined.

(** ** The lag as the figures compute it again *)

Lemma abs_floor_days (x : Z) :
  ((0 <= x \/ x `mod` NS_PER_DAY = 0) ->
   Z.abs (timedelta_days x) = timedelta_days (Z.abs x))%Z /\
  ((x < 0 /\ x `mod` NS_PER_DAY <> 0) ->
   Z.abs (timedelta_days x) = timedelta_days (Z.abs x) + 1)%Z.
Proof.
  unfold timedelta_days, NS_PER_DAY.
  set (D := 86400000000000%Z). assert (0 < D)%Z as HD by (unfold D; lia).
  pose proof (Z.div_mod x D ltac:(lia)) as Hx.
  pose proof (Z.mod_pos_bound x D HD) as Hm.
  split.
  - intros [Hpos|Hdiv].
    + rewrite (Z.abs_eq x) by lia. apply Z.abs_eq. apply Z.div_pos; lia.
    + destruct (Z_lt_le_dec x 0) as [Hneg|Hpos].
      * rewrite (Z.abs_neq x) by lia.
        rewrite Z.div_opp_l_z by lia.
        apply Z.abs_neq. assert (x `div` D < 0)%Z by (apply Z.div_lt_upper_bound; lia).
        lia.
      * rewrite (Z.abs_eq x) by lia. apply Z.abs_eq. apply Z.div_pos; lia.
  - intros [Hneg Hdiv].
    rewrite (Z.abs_neq x) by lia.
    rewrite Z.div_opp_l_nz by lia.
    assert (x `div` D < 0)%Z by (apply Z.div_lt_upper_bound; lia).
    lia.
Qed.

Lemma Rabs_days_years (z : Z) : Rabs (IZR z / 365.25) = IZR (Z.abs z) / 365.25.
Proof.
  unfold Rdiv. rewrite Rabs_mult, <- abs_IZR.
  rewrite (Rabs_right (/ 365.25)); [done|].
  apply Rle_ge. left. apply Rinv_0_lt_compat. lra.
Qed.

(** X15: the lag in years that [landuse_comparison.py] computes again
    from the two timestamps is the [lag_days] of the match divided by
    365.25, as [temporal_lag_histogram.py] has it, when the patch is not
    earlier than the sample or earlier by a whole number of days; it is
    one day longer otherwise, the days being floored before the absolute
    value is taken. *)
Theorem temporal_lag_years_vs_lag_days (site_row : site) (eo_timestamp : Z) :
  ((Sample_midpoint site_row <= eo_timestamp \/
    (eo_timestamp - Sample_midpoint site_row) `mod` NS_PER_DAY = 0)%Z ->
   temporal_lag_years eo_timestamp (Sample_midpoint site_row)
   = lag_years (lag_in_days site_row eo_timestamp)) /\
  ((eo_timestamp < Sample_midpoint site_row /\
    (eo_timestamp - Sample_midpoint site_row) `mod` NS_PER_DAY <> 0)%Z ->
   temporal_lag_years eo_timestamp (Sample_midpoint site_row)
   = lag_years (lag_in_days site_row eo_timestamp + 1)).
Proof.
  unfold temporal_lag_years, lag_years, lag_in_days.
  rewrite Rabs_days_years.
  destruct (abs_floor_days (eo_timestamp - Sample_midpoint site_row)) as [Hsame Hmore].
  split.
  - intros [Hle|Hdiv]; rewrite Hsame; first [done | lia | by right].
  - intros [Hlt Hdiv]. rewrite Hmore; [done|]. split; [lia|done].
Qed.

Lemma temporal_lag_years_vs_lag_days_witness :
  (-1 < Sample_midpoint demo_site /\
   (-1 - Sample_midpoint demo_site) `mod` NS_PER_DAY <> 0)%Z /\
  temporal_lag_years (-1) (Sample_midpoint demo_site)
  = lag_years (lag_in_days demo_site (-1) + 1).
Proof.
  assert (-1 < Sample_midpoint demo_site /\
          (-1 - Sample_midpoint demo_site) `mod` NS_PER_DAY <> 0)%Z as H
    by (split; [simpl; lia|by vm_compute]).
  split; [exact H|].
  exact (proj2 (temporal_lag_years_vs_lag_days demo_site (-1)) H).
Defined.

(** ** The grid of the exploration script *)

(** X16: the grid cell that the exploration script prints for a
    coordinate, from [grid_bin x] to [grid_bin x + 10], contains the
    coordinate, and its lower edge is a whole multiple of 10. *)
Theorem grid_bin_contains (x : R) :
  grid_bin x <= x < grid_bin x + 10 /\
  exists k : Z, grid_bin x = IZR k * 10.
Proof.
  unfold grid_bin, floordiv.
  destruct (base_Int_part (x / 10)) as [Hle Hgt].
  split; [lra|]. by exists (Int_part (x / 10)).
Qed.

(** ** The overlap statistics *)

(** X17: the overlap statistics of the temporal-coverage figure fail on
    a division by zero exactly when no site is matched; otherwise the
    sites in the overlap and in the gap add up to the matched sites, and
    the two percentages lie between 0 and 100 and add up to 100. *)
Theorem overlap_statistics_coherent (matches_df : list year_row) :
  (overlap_statistics matches_df = ZeroDivisionError <-> matches_df = []) /\
  (forall st, overlap_statistics matches_df = Computed st ->
     (overlap_sites st + gap_sites st = Z.of_nat (length matches_df))%Z /\
     (0 <= overlap_sites st)%Z /\ (0 <= gap_sites st)%Z /\
     0 <= overlap_pct st <= 100 /\ 0 <= gap_pct st <= 100 /\
     overlap_pct st + gap_pct st = 100).
Proof.
  unfold overlap_statistics, truediv; cbv zeta.
  pose proof (length_filter in_overlap matches_df) as Hle.
  destruct (decide (Z.of_nat (length matches_df) = 0%Z)) as [Hz|Hnz].
  - split; [|done]. split; [intros _|done].
    destruct matches_df; [done|simpl in Hz; lia].
  - split.
    { split; [done|]. intros ->. by simpl in Hnz. }
    intros st [= <-]; simpl.
    set (n := length matches_df) in *. set (k := length (filter in_overlap matches_df)) in *.
    assert (0 < IZR (Z.of_nat n)) as Hn by (apply IZR_lt; lia).
    assert (0 <= IZR (Z.of_nat k) <= IZR (Z.of_nat n)) as Hk
      by (split; apply IZR_le; lia).
    rewrite minus_IZR.
    split; [lia|]. split; [lia|]. split; [lia|].
    assert (0 <= IZR (Z.of_nat k) / IZR (Z.of_nat n) <= 1) as Hq.
    { split.
      - apply Rmult_le_pos; [lra|]. left. by apply Rinv_0_lt_compat.
      - replace 1 with (IZR (Z.of_nat n) / IZR (Z.of_nat n)) by (field; lra).
        apply Rmult_le_compat_r; [|lra]. left. by apply Rinv_0_lt_compat. }
    assert ((IZR (Z.of_nat n) - IZR (Z.of_nat k)) / IZR (Z.of_nat n)
            = 1 - IZR (Z.of_nat k) / IZR (Z.of_nat n)) as -> by (field; lra).
    lra.
Qed.

(** ** Unparsed timestamps *)


